(** * A resilient WebSocket event listener: model and verified properties

    Shallow embedding of [src/src/resilientEventListener.ts].

    The TypeScript function [resilientEventListener(args)] keeps five
    variables ([ws], [pingTimeout], [keepAliveInterval], [stopped],
    [reconnectDelay]) that every handler closure shares, and one variable
    per call of [connect] ([subscriptionId]) that only the handlers of the
    socket built by that call share.  The handlers run one at a time, as
    reactions to socket events, to timers and to the caller's [stop()].

    The model keeps the shared variables in a record, the per-connection
    variable in a list indexed by the socket, the host's pending timers in a
    finite map, and everything the code does to its collaborators (sockets,
    logger, decoder, consumer callback, timers) in a chronological trace.
    Handlers are written in a small state-and-exception monad so that they
    read like the source. *)

From Stdlib Require Import ZArith Bool.
From stdpp Require Import base gmap list strings.

Local Open Scope Z_scope.
Local Open Scope string_scope.
Local Open Scope list_scope.

(** ** JavaScript values *)

(** The values the handlers inspect come out of [JSON.parse], or are
    [undefined] (an absent property, a variable never assigned).  An object
    is the list of its own properties, each key once.  Numbers are the
    integral ones: the code compares numbers with [1], with [2] and, by
    [===], with each other, and does no arithmetic on them. *)
#[warnings="-register-all"]
Inductive JSValue : Type :=
| JUndefined
| JNull
| JBool (b : bool)
| JNumber (n : Z)
| JString (s : string)
| JArray (items : list JSValue)
| JObject (fields : list (string * JSValue)).

(** [a === b] where [a] and [b] come from two different [JSON.parse] calls,
    or one of them is a literal or an unassigned variable: primitives are
    compared by value; two objects (or arrays) are never the same
    reference. *)
Definition strict_eq (a b : JSValue) : bool :=
  match a, b with
  | JUndefined, JUndefined => true
  | JNull, JNull => true
  | JBool x, JBool y => Bool.eqb x y
  | JNumber x, JNumber y => Z.eqb x y
  | JString x, JString y => String.eqb x y
  | _, _ => false
  end.

Fixpoint own_property (fields : list (string * JSValue)) (key : string) : JSValue :=
  match fields with
  | [] => JUndefined
  | (k, v) :: rest => if String.eqb k key then v else own_property rest key
  end.

(** Reading one of the properties the handler names ([id], [result],
    [method], [params], [subscription]) off a value that is neither
    [undefined] nor [null]: none of them is on a prototype, so only an
    object's own property can answer. *)
Definition property (v : JSValue) (key : string) : JSValue :=
  match v with
  | JObject fields => own_property fields key
  | _ => JUndefined
  end.

(** [v?.key] *)
Definition opt_get (v : JSValue) (key : string) : JSValue :=
  match v with
  | JUndefined | JNull => JUndefined
  | _ => property v key
  end.

(** [v.key]: [None] stands for the TypeError of reading a property of
    [undefined] or [null]. *)
Definition get (v : JSValue) (key : string) : option JSValue :=
  match v with
  | JUndefined | JNull => None
  | _ => Some (property v key)
  end.

(** Whether a template literal [`${v}`] throws while converting [v] to a
    string.  A parsed object converts through [Object.prototype.toString]
    unless it has an own property [toString], which, being no function,
    leaves only [valueOf], which never yields a primitive here: a
    TypeError.  An array joins the conversions of its items. *)
Fixpoint ToString_throws (v : JSValue) : bool :=
  match v with
  | JArray items => existsb ToString_throws items
  | JObject fields => existsb (fun kv => String.eqb (fst kv) "toString") fields
  | _ => false
  end.

(** ** Arguments and collaborators *)

Inductive LogLevel := debug | info | warn | error.

(** What [contract.interface.parseLog] returns when it returns an event. *)
Record LogDescription := { log_name : string; log_args : JSValue }.

Inductive Exn :=
| TypeError      (* raised by the listener's own code *)
| DecoderError.  (* raised inside [parseLog] *)

Inductive Completion (A : Type) :=
| Normal (a : A)
| Throw (e : Exn).
Arguments Normal {A} a.
Arguments Throw {A} e.

(** A property of type [number] as the caller may set it: a finite value,
    in whole milliseconds, or [NaN].  The code only tests such a number
    for truthiness and passes it on: [0] (and [-0]) and [NaN] are the
    falsy numbers; every other number, fractional and infinite ones too,
    is truthy and takes the path of a non-zero [Num]. *)
Inductive JSNumber :=
| Num (n : Z)
| NaN.

(** [ResilientEventListenerArgs].  The logger and the consumer callback are
    optional capabilities: the record says whether each was supplied.  The
    two numbers are optional; [None] is an absent property. *)
Record ResilientEventListenerArgs := {
  rpcUrl : string;
  contractAddress : string;
  eventName : string;
  log_supplied : bool;
  callback_supplied : bool;
  keepAliveCheckInterval : option JSNumber;
  expectedPongBack : option JSNumber
}.

(** What the listener uses of [new Contract(contractAddress, abi)]: the
    topic hash of the event named [eventName] (the ABI is taken to declare
    it, otherwise the very first [connect] throws and no listener exists),
    and the decoder, which returns an event or [null], or throws. *)
Record Contract := {
  topicHash : string;
  parseLog : JSValue -> Completion (option LogDescription)
}.

Definition DEFAULT_EXPECTED_PONG_BACK : Z := 15000.
Definition DEFAULT_KEEP_ALIVE_CHECK_INTERVAL : Z := 60 * 1000.

(** [configured || fallback] on an optional number: [undefined], [0] and
    [NaN] are falsy and give the fallback; any other number is kept. *)
Definition or_default (configured : option JSNumber) (fallback : Z) : Z :=
  match configured with
  | Some (Num n) => if Z.eqb n 0 then fallback else n
  | Some NaN => fallback
  | None => fallback
  end.

(** ** Sockets, timers, effects *)

(** Sockets are numbered in the order [connect] builds them, timers in
    the order they are armed. *)
Abbreviation SockId := nat (only parsing).
Abbreviation TimerId := nat (only parsing).

Inductive ReadyState := CONNECTING | OPEN | CLOSING | CLOSED.

(** One [WebSocket] built by [connect], with the variable [subscriptionId]
    of that call of [connect]. *)
Record Socket := {
  readyState : ReadyState;
  subscriptionId : JSValue
}.

(** The three closures the listener hands to [setTimeout]/[setInterval]. *)
Inductive TimerCallback :=
| CbConnect       (* [setTimeout(connect, reconnectDelay)] *)
| CbKeepAlive     (* the [setInterval] closure of [onopen] *)
| CbPingTimeout.  (* the [setTimeout] closure armed with each ping *)

Record Timer := {
  callback : TimerCallback;
  delay : Z;
  repeats : bool
}.

Inductive LogMessage :=
| MsgNotReconnecting
| MsgConnecting (url : string)
| MsgSubscribing (topic : string)
| MsgWebSocketError (message : string)
| MsgClosed
| MsgUnexpectedData
| MsgParseFailed
| MsgEstablished (event : string) (id : JSValue)
| MsgHealthOk
| MsgReceived (eventLog : option LogDescription)
| MsgOpened
| MsgHealthCheck (event : string)
| MsgPingTimeout
| MsgUnexpectedResponse (statusCode : Z) (statusMessage : string)
| MsgStopping.

Inductive Effect :=
| NewWebSocket (url : string) (c : SockId)
| WsSend (c : SockId) (payload : JSValue)
| WsClose (c : SockId)
| WsTerminate (c : SockId)
| Log (level : LogLevel) (m : LogMessage)
| ParseLog (logData : JSValue)
| Callback (eventLog : option LogDescription)
| SetTimer (t : TimerId) (tm : Timer)
| ClearTimer (t : TimerId).

(** ** State *)

Record State := {
  ws : option SockId;
  pingTimeout : option TimerId;
  keepAliveInterval : option TimerId;
  stopped : bool;
  reconnectDelay : Z;
  sockets : list Socket;
  timers : gmap TimerId Timer;
  nextTimer : TimerId;
  trace : list Effect
}.

Definition with_ws (v : option SockId) (s : State) : State :=
  {| ws := v; pingTimeout := pingTimeout s; keepAliveInterval := keepAliveInterval s;
     stopped := stopped s; reconnectDelay := reconnectDelay s; sockets := sockets s;
     timers := timers s; nextTimer := nextTimer s; trace := trace s |}.

Definition with_pingTimeout (v : option TimerId) (s : State) : State :=
  {| ws := ws s; pingTimeout := v; keepAliveInterval := keepAliveInterval s;
     stopped := stopped s; reconnectDelay := reconnectDelay s; sockets := sockets s;
     timers := timers s; nextTimer := nextTimer s; trace := trace s |}.

Definition with_keepAliveInterval (v : option TimerId) (s : State) : State :=
  {| ws := ws s; pingTimeout := pingTimeout s; keepAliveInterval := v;
     stopped := stopped s; reconnectDelay := reconnectDelay s; sockets := sockets s;
     timers := timers s; nextTimer := nextTimer s; trace := trace s |}.

Definition with_stopped (v : bool) (s : State) : State :=
  {| ws := ws s; pingTimeout := pingTimeout s; keepAliveInterval := keepAliveInterval s;
     stopped := v; reconnectDelay := reconnectDelay s; sockets := sockets s;
     timers := timers s; nextTimer := nextTimer s; trace := trace s |}.

Definition with_reconnectDelay (v : Z) (s : State) : State :=
  {| ws := ws s; pingTimeout := pingTimeout s; keepAliveInterval := keepAliveInterval s;
     stopped := stopped s; reconnectDelay := v; sockets := sockets s;
     timers := timers s; nextTimer := nextTimer s; trace := trace s |}.

Definition with_sockets (v : list Socket) (s : State) : State :=
  {| ws := ws s; pingTimeout := pingTimeout s; keepAliveInterval := keepAliveInterval s;
     stopped := stopped s; reconnectDelay := reconnectDelay s; sockets := v;
     timers := timers s; nextTimer := nextTimer s; trace := trace s |}.

Definition with_timers (v : gmap TimerId Timer) (n : TimerId) (s : State) : State :=
  {| ws := ws s; pingTimeout := pingTimeout s; keepAliveInterval := keepAliveInterval s;
     stopped := stopped s; reconnectDelay := reconnectDelay s; sockets := sockets s;
     timers := v; nextTimer := n; trace := trace s |}.

Definition with_trace (v : list Effect) (s : State) : State :=
  {| ws := ws s; pingTimeout := pingTimeout s; keepAliveInterval := keepAliveInterval s;
     stopped := stopped s; reconnectDelay := reconnectDelay s; sockets := sockets s;
     timers := timers s; nextTimer := nextTimer s; trace := v |}.

(** ** The monad of handlers *)

Definition M (A : Type) : Type := State -> Completion A * State.

Definition ret {A} (a : A) : M A := fun s => (Normal a, s).

Definition bind {A B} (m : M A) (k : A -> M B) : M B :=
  fun s =>
    match m s with
    | (Normal a, s') => k a s'
    | (Throw e, s') => (Throw e, s')
    end.

Definition throw {A} (e : Exn) : M A := fun s => (Throw e, s).

Definition read {A} (f : State -> A) : M A := fun s => (Normal (f s), s).

Definition update (f : State -> State) : M unit := fun s => (Normal tt, f s).

#[export] Instance M_ret : MRet M := @ret.
#[export] Instance M_bind : MBind M := fun A B k m => bind m k.

(** [if (b) { m }] *)
Definition when (b : bool) (m : M unit) : M unit := if b then m else ret tt.

Definition emit (e : Effect) : M unit :=
  update (fun s => with_trace (trace s ++ [e]) s).

(** [setTimeout] and [setInterval]: a fresh handle, entered in the host's
    table of pending timers. *)
Definition arm (tm : Timer) : M TimerId :=
  t ← read nextTimer;
  update (fun s => with_timers (<[t := tm]> (timers s)) (S t) s);;
  emit (SetTimer t tm);;
  mret t.

Definition setTimeout (cb : TimerCallback) (ms : Z) : M TimerId :=
  arm {| callback := cb; delay := ms; repeats := false |}.

Definition setInterval (cb : TimerCallback) (ms : Z) : M TimerId :=
  arm {| callback := cb; delay := ms; repeats := true |}.

(** [clearTimeout] and [clearInterval]: the handle leaves the table;
    clearing a handle that is no longer pending does nothing. *)
Definition clearTimer (t : TimerId) : M unit :=
  update (fun s => with_timers (delete t (timers s)) (nextTimer s) s);;
  emit (ClearTimer t).

Definition set_readyState (c : SockId) (r : ReadyState) : M unit :=
  update (fun s =>
    match sockets s !! c with
    | Some sock =>
        with_sockets (<[c := {| readyState := r; subscriptionId := subscriptionId sock |}]> (sockets s)) s
    | None => s
    end).

Definition get_readyState (c : SockId) : M (option ReadyState) :=
  read (fun s => readyState <$> (sockets s !! c)).

(** The variable [subscriptionId] of the [connect] call that built [c];
    [undefined] until assigned. *)
Definition current_subscription (s : State) (c : SockId) : JSValue :=
  default JUndefined (subscriptionId <$> (sockets s !! c)).

Definition get_subscriptionId (c : SockId) : M JSValue :=
  read (fun s => current_subscription s c).

Definition set_subscriptionId (c : SockId) (v : JSValue) : M unit :=
  update (fun s =>
    match sockets s !! c with
    | Some sock =>
        with_sockets (<[c := {| readyState := readyState sock; subscriptionId := v |}]> (sockets s)) s
    | None => s
    end).

Definition if_some {A} (o : option A) (k : A -> M unit) : M unit :=
  match o with
  | Some a => k a
  | None => mret tt
  end.

(** [v.key] inside a handler. *)
Definition get' (v : JSValue) (key : string) : M JSValue :=
  match get v key with
  | Some x => mret x
  | None => throw TypeError
  end.

(** What [ws.close()] and [ws.terminate()] do to [readyState]. *)
Definition closing (r : ReadyState) : ReadyState :=
  match r with
  | CLOSED => CLOSED
  | _ => CLOSING
  end.

(** The payload of [event.data] as the message handler sees it: a string,
    a [Buffer], or anything else.  A string or a buffer comes with what
    [JSON.parse] makes of its text: a value, or [None] for the SyntaxError
    it throws. *)
Inductive MessageData :=
| DataString (parsed : option JSValue)
| DataBuffer (parsed : option JSValue)
| DataOther.

(** ** The listener *)

Section Listener.

Variable args : ResilientEventListenerArgs.
Variable contract : Contract.

(** The wrapper [log]: forwards to [args.log] when there is one.  The
    logger and the consumer callback are collaborators: they return, and
    they do not call back into the listener. *)
Definition log (level : LogLevel) (m : LogMessage) : M unit :=
  when (log_supplied args) (emit (Log level m)).

Definition request : JSValue :=
  JObject [("id", JNumber 1);
           ("method", JString "eth_subscribe");
           ("params", JArray [JString "logs";
                              JObject [("topics", JArray [JString (topicHash contract)]);
                                       ("address", JString (contractAddress args))]])].

Definition ping : JSValue :=
  JObject [("id", JNumber 2);
           ("method", JString "net_listening");
           ("params", JArray [])].

(** [new WebSocket(url)]: one more socket, connecting, with the
    [subscriptionId] of this call of [connect] still unassigned. *)
Definition new_WebSocket (url : string) : M SockId :=
  c ← read (fun s => length (sockets s));
  update (fun s => with_sockets
            (sockets s ++ [{| readyState := CONNECTING; subscriptionId := JUndefined |}]) s);;
  emit (NewWebSocket url c);;
  mret c.

Definition send (c : SockId) (payload : JSValue) : M unit :=
  emit (WsSend c payload).

Definition close (c : SockId) : M unit :=
  r ← get_readyState c;
  if_some r (fun r => set_readyState c (closing r));;
  emit (WsClose c).

Definition terminate (c : SockId) : M unit :=
  r ← get_readyState c;
  if_some r (fun r => set_readyState c (closing r));;
  emit (WsTerminate c).

Definition connect : M unit :=
  st ← read stopped;
  if (st : bool) then log info MsgNotReconnecting
  else
    log info (MsgConnecting (rpcUrl args));;
    c ← new_WebSocket (rpcUrl args);
    update (with_ws (Some c));;
    log debug (MsgSubscribing (topicHash contract)).

Definition onerror (message : string) : M unit :=
  log error (MsgWebSocketError message).

Definition onclose : M unit :=
  log info MsgClosed;;
  kai ← read keepAliveInterval;
  if_some kai clearTimer;;
  pt ← read pingTimeout;
  if_some pt clearTimer;;
  update (with_ws None);;
  st ← read stopped;
  when (negb st)
    (d ← read reconnectDelay;
     _ ← setTimeout CbConnect d;
     update (with_reconnectDelay (Z.min (d * 2) 30000))).

(** The decoder: the call is recorded, then it returns or throws. *)
Definition call_parseLog (logData : JSValue) : M (option LogDescription) :=
  emit (ParseLog logData);;
  match parseLog contract logData with
  | Normal eventLog => mret eventLog
  | Throw e => throw e
  end.

(** [parsedData?.id === request.id] *)
Definition is_subscribe_confirmation (parsedData : JSValue) : bool :=
  strict_eq (opt_get parsedData "id") (property request "id").

(** [parsedData?.id === ping.id && parsedData?.result === true] *)
Definition is_keepalive_confirmation (parsedData : JSValue) : bool :=
  strict_eq (opt_get parsedData "id") (property ping "id")
  && strict_eq (opt_get parsedData "result") (JBool true).

(** The three branches of [ws.onmessage] that follow a successful parse. *)
Definition dispatch (c : SockId) (parsedData : JSValue) : M unit :=
  if is_subscribe_confirmation parsedData then
    result ← get' parsedData "result";
    set_subscriptionId c result;;
    if ToString_throws result then throw TypeError
    else log info (MsgEstablished (eventName args) result)
  else if is_keepalive_confirmation parsedData then
    log debug MsgHealthOk;;
    pt ← read pingTimeout;
    if_some pt (fun t => clearTimer t;; update (with_pingTimeout None))
  else if strict_eq (opt_get parsedData "method") (JString "eth_subscription") then
    params ← get' parsedData "params";
    subscription ← get' params "subscription";
    current ← get_subscriptionId c;
    if strict_eq subscription current then
      params ← get' parsedData "params";
      logData ← get' params "result";
      eventLog ← call_parseLog logData;
      log info (MsgReceived eventLog);;
      when (callback_supplied args) (emit (Callback eventLog))
    else mret tt
  else mret tt.

Definition onmessage (c : SockId) (data : MessageData) : M unit :=
  match data with
  | DataString (Some parsedData) => dispatch c parsedData
  | DataBuffer (Some parsedData) => dispatch c parsedData
  | DataString None => log error MsgParseFailed
  | DataBuffer None => log error MsgParseFailed
  | DataOther => log warn MsgUnexpectedData
  end.

(** The closure [onopen] hands to [setInterval]. *)
Definition keepAliveTick : M unit :=
  w ← read ws;
  if_some w (fun w =>
    r ← get_readyState w;
    match r with
    | Some OPEN =>
        log debug (MsgHealthCheck (eventName args));;
        send w ping;;
        t ← setTimeout CbPingTimeout (or_default (expectedPongBack args) DEFAULT_EXPECTED_PONG_BACK);
        update (with_pingTimeout (Some t))
    | _ => mret tt
    end).

(** The closure armed with each ping. *)
Definition pingTimeoutFired : M unit :=
  w ← read ws;
  if_some w (fun w => log warn MsgPingTimeout;; terminate w).

(** [ws!.send] dereferences the shared variable [ws]: a TypeError when it
    is [null]. *)
Definition onopen : M unit :=
  log info MsgOpened;;
  update (with_reconnectDelay 1000);;
  w ← read ws;
  match w with
  | Some w => send w request
  | None => throw TypeError
  end;;
  t ← setInterval CbKeepAlive
        (or_default (keepAliveCheckInterval args) DEFAULT_KEEP_ALIVE_CHECK_INTERVAL);
  update (with_keepAliveInterval (Some t)).

Definition stop : M unit :=
  log info MsgStopping;;
  update (with_stopped true);;
  w ← read ws;
  if_some w (fun w => close w;; update (with_ws None));;
  kai ← read keepAliveInterval;
  if_some kai clearTimer;;
  pt ← read pingTimeout;
  if_some pt clearTimer.

Definition onUnexpectedResponse (statusCode : Z) (statusMessage : string) : M unit :=
  log error (MsgUnexpectedResponse statusCode statusMessage);;
  stop.

(** ** Events *)

(** What the host delivers to the listener: the events of a socket, a
    pending timer that fires, the caller's [stop()].  Socket events name a
    socket that [connect] built; time is abstracted to the order in which
    pending timers fire. *)
Inductive Event :=
| EvOpen (c : SockId)
| EvError (c : SockId) (message : string)
| EvClose (c : SockId)
| EvMessage (c : SockId) (data : MessageData)
| EvUnexpectedResponse (c : SockId) (statusCode : Z) (statusMessage : string)
| EvTimer (t : TimerId)
| EvStop.

(** A timer fires only while pending; a timeout leaves the table as it
    fires, an interval stays. *)
Definition fire (t : TimerId) : M unit :=
  tm ← read (fun s => timers s !! t);
  if_some tm (fun tm =>
    when (negb (repeats tm))
      (update (fun s => with_timers (delete t (timers s)) (nextTimer s) s));;
    match callback tm with
    | CbConnect => connect
    | CbKeepAlive => keepAliveTick
    | CbPingTimeout => pingTimeoutFired
    end).

Definition handle (e : Event) : M unit :=
  match e with
  | EvOpen c => set_readyState c OPEN;; onopen
  | EvError _ message => onerror message
  | EvClose c => set_readyState c CLOSED;; onclose
  | EvMessage c data => onmessage c data
  | EvUnexpectedResponse _ statusCode statusMessage => onUnexpectedResponse statusCode statusMessage
  | EvTimer t => fire t
  | EvStop => stop
  end.

(** One reaction; an exception that escapes a handler leaves the variables
    as the handler left them. *)
Definition step (s : State) (e : Event) : State := snd (handle e s).

Definition outcome (s : State) (e : Event) : Completion unit := fst (handle e s).

Definition run (evs : list Event) (s : State) : State := fold_left step evs s.

Definition initial : State :=
  {| ws := None; pingTimeout := None; keepAliveInterval := None;
     stopped := false; reconnectDelay := 1000; sockets := [];
     timers := ∅; nextTimer := 0%nat; trace := [] |}.

(** [resilientEventListener(args)]: the variables are initialised and
    [connect()] is called once. *)
Definition resilientEventListener : State := snd (connect initial).

End Listener.

Arguments request : simpl never.
Arguments ping : simpl never.

(** ** Vocabulary of the statements *)

(** What [JSON.parse] made of a frame, when the handler got to parse it and
    the parse succeeded. *)
Definition payload (data : MessageData) : option JSValue :=
  match data with
  | DataString parsed => parsed
  | DataBuffer parsed => parsed
  | DataOther => None
  end.

(** [parsedData.params.subscription], when the two reads succeed. *)
Definition notified_subscription (parsedData : JSValue) : option JSValue :=
  params ← get parsedData "params"; get params "subscription".

(** [parsedData.params.result], when the two reads succeed. *)
Definition notified_log (parsedData : JSValue) : option JSValue :=
  params ← get parsedData "params"; get params "result".

(** The listener's variables and the host's timer table, without the
    trace: what is left of a state once its trace is erased. *)
Definition variables (s : State) : State := with_trace [] s.

(** The listener after [stop()]: stopped for good, holding no socket. *)
Definition halted (s : State) : Prop := stopped s = true /\ ws s = None.

Definition opens_transport (e : Effect) : bool :=
  match e with
  | NewWebSocket _ _ => true
  | _ => false
  end.

Definition arms_timer (e : Effect) : bool :=
  match e with
  | SetTimer _ _ => true
  | _ => false
  end.

Definition schedules_reconnect (e : Effect) : bool :=
  match e with
  | SetTimer _ tm => match callback tm with CbConnect => true | _ => false end
  | _ => false
  end.

Definition invokes_consumer (e : Effect) : bool :=
  match e with
  | ParseLog _ | Callback _ => true
  | _ => false
  end.

(** Effects that touch neither a socket nor the timer table's arming side:
    all that a halted listener still does. *)
Definition inert (e : Effect) : bool :=
  match e with
  | NewWebSocket _ _ | WsSend _ _ | WsClose _ | WsTerminate _ | SetTimer _ _ => false
  | _ => true
  end.

(** [s'] follows [s] with the listener halted, no socket built, no timer
    armed, and only inert effects added. *)
Record quiet (s s' : State) : Prop := {
  quiet_halted : halted s';
  quiet_sockets : length (sockets s') = length (sockets s);
  quiet_nextTimer : nextTimer s' = nextTimer s;
  quiet_timers : timers s' ⊆ timers s;
  quiet_trace : exists new, trace s' = trace s ++ new /\ Forall (fun e => inert e = true) new
}.

(** Events that neither reset the backoff (an open) nor stop the listener. *)
Definition keeps_backoff (e : Event) : bool :=
  match e with
  | EvOpen _ | EvStop | EvUnexpectedResponse _ _ _ => false
  | _ => true
  end.

Definition is_close (e : Event) : bool :=
  match e with
  | EvClose _ => true
  | _ => false
  end.

(** How many close events a schedule holds. *)
Fixpoint closes (evs : list Event) : nat :=
  match evs with
  | [] => 0%nat
  | e :: rest => ((if is_close e then 1 else 0) + closes rest)%nat
  end.

(** The optional logging of one message, as a piece of trace. *)
Definition logged (a : ResilientEventListenerArgs) (level : LogLevel) (m : LogMessage) : list Effect :=
  if log_supplied a then [Log level m] else [].

Definition cleared (handle : option TimerId) : list Effect :=
  match handle with
  | Some t => [ClearTimer t]
  | None => []
  end.

(** Every timer handle the listener holds, and every pending timer, was
    handed out by [setTimeout] or [setInterval]. *)
Definition issued (s : State) : Prop :=
  (forall t, keepAliveInterval s = Some t -> (t < nextTimer s)%nat) /\
  (forall t, pingTimeout s = Some t -> (t < nextTimer s)%nat) /\
  (forall t tm, timers s !! t = Some tm -> (t < nextTimer s)%nat).

(** ** Concrete instances *)

(** The arguments of the repository's test-suite, with a logger and a
    consumer callback, and the two keep-alive numbers as given (finite
    when given). *)
Definition testArgs (interval pong : option Z) : ResilientEventListenerArgs :=
  {| rpcUrl := "ws://test-url.com";
     contractAddress := "0x12345";
     eventName := "TestEvent";
     log_supplied := true;
     callback_supplied := true;
     keepAliveCheckInterval := Num <$> interval;
     expectedPongBack := Num <$> pong |}.

(** A contract whose decoder names every log it is given "TestEvent". *)
Definition testContract : Contract :=
  {| topicHash := "0xmockTopicHash";
     parseLog := fun logData => Normal (Some {| log_name := "TestEvent"; log_args := logData |}) |}.

Definition frame (fields : list (string * JSValue)) : MessageData :=
  DataString (Some (JObject fields)).

(** The frames of the wire protocol used below. *)
Definition confirmation (id : string) : MessageData :=
  frame [("id", JNumber 1); ("result", JString id)].

Definition pong : MessageData :=
  frame [("id", JNumber 2); ("result", JBool true)].

Definition notification (params : list (string * JSValue)) : JSValue :=
  JObject [("method", JString "eth_subscription"); ("params", JObject params)].

Definition rawLog : JSValue := JObject [("data", JString "0xeventData")].

(** ** Vocabulary of the further properties *)

(** How many reconnect timers an event is due to arm: one for a close
    while the listener is not stopped, none otherwise. *)
Definition reconnects_due (s : State) (e : Event) : nat :=
  if is_close e && negb (stopped s) then 1%nat else 0%nat.

(** How many sockets an event is due to build: one when a pending
    [setTimeout(connect, ...)] fires while the listener is not stopped. *)
Definition transports_due (s : State) (e : Event) : nat :=
  match e with
  | EvTimer t =>
      match timers s !! t with
      | Some tm =>
          match callback tm with
          | CbConnect => if stopped s then 0%nat else 1%nat
          | _ => 0%nat
          end
      | None => 0%nat
      end
  | _ => 0%nat
  end.

(** A log call needs a logger and a callback call needs a consumer. *)
Definition permitted (a : ResilientEventListenerArgs) (e : Effect) : bool :=
  match e with
  | Log _ _ => log_supplied a
  | Callback _ => callback_supplied a
  | _ => true
  end.

(** [ws && ws.readyState], the state of the socket the listener holds. *)
Definition current_readyState (s : State) : option ReadyState :=
  w ← ws s; readyState <$> (sockets s !! w).

(** The three kinds of timer as the code arms them: a reconnect once,
    after 1000 to 30000 ms; the keep-alive repeatedly, at the configured
    period when that is a non-zero number and at 60000 ms when it is
    unset, 0 or NaN; a pong deadline once, at the configured timeout when
    that is a non-zero number and at 15000 ms when it is unset, 0 or
    NaN. *)
Definition timer_in_policy (a : ResilientEventListenerArgs) (tm : Timer) : bool :=
  match callback tm with
  | CbConnect => (1000 <=? delay tm)%Z && (delay tm <=? 30000)%Z && negb (repeats tm)
  | CbKeepAlive =>
      (delay tm =? match keepAliveCheckInterval a with
                   | Some (Num n) => if (n =? 0)%Z then 60000 else n
                   | Some NaN => 60000
                   | None => 60000
                   end)%Z
      && repeats tm
  | CbPingTimeout =>
      (delay tm =? match expectedPongBack a with
                   | Some (Num n) => if (n =? 0)%Z then 15000 else n
                   | Some NaN => 15000
                   | None => 15000
                   end)%Z
      && negb (repeats tm)
  end.

Definition effect_in_policy (a : ResilientEventListenerArgs) (e : Effect) : bool :=
  match e with
  | SetTimer _ tm => timer_in_policy a tm
  | _ => true
  end.

Definition timing_invariant (a : ResilientEventListenerArgs) (s : State) : Prop :=
  (1000 <= reconnectDelay s <= 30000)%Z /\
  (forall t tm, timers s !! t = Some tm -> timer_in_policy a tm = true) /\
  Forall (fun e => effect_in_policy a e = true) (trace s).

Definition newest_invariant (s : State) : Prop :=
  (forall c, ws s = Some c -> S c = length (sockets s)) /\
  length (List.filter opens_transport (trace s)) = length (sockets s).

#[export] Instance TimerCallback_eq_dec : EqDecision TimerCallback.
Proof. solve_decision. Defined.

(** The reconnect timers still pending. *)
Definition pending_reconnects (m : gmap nat Timer) : nat :=
  size (filter (fun kv => callback kv.2 = CbConnect) m).

(** A contract whose decoder rejects every log. *)
Definition failingContract : Contract :=
  {| topicHash := "0xmockTopicHash"; parseLog := fun _ => Throw DecoderError |}.

(** The listener of the test-suite once its first socket has opened. *)
Definition opened (interval pong : option Z) : State :=
  run (testArgs interval pong) testContract [EvOpen 0%nat]
    (resilientEventListener (testArgs interval pong) testContract).

Definition keepAliveTimer (period : Z) : Timer :=
  {| callback := CbKeepAlive; delay := period; repeats := true |}.

(** ** Proof tools *)

Ltac unfold_handlers :=
  unfold step, outcome, handle, fire, onUnexpectedResponse, stop, onopen, pingTimeoutFired,
    keepAliveTick, onmessage, dispatch, call_parseLog, onclose, onerror, connect,
    terminate, close, send, new_WebSocket, log, get', if_some, when,
    set_subscriptionId, get_subscriptionId, get_readyState, set_readyState,
    clearTimer, setInterval, setTimeout, arm, emit,
    mbind, mret, M_bind, M_ret, bind, ret, throw, read, update in *.

Ltac break_match :=
  match goal with
  | |- context [match ?x with _ => _ end] =>
      lazymatch x with
      | context [match _ with _ => _ end] => fail
      | _ => destruct x eqn:?
      end
  end.

Ltac unfold_tests :=
  unfold is_subscribe_confirmation, is_keepalive_confirmation, request, ping in *.

Ltac reduce := cbn -[lookup insert delete Z.min Z.mul Z.pow length app] in *.

Ltac crunch := repeat (reduce; try break_match).

Ltac trace_tail :=
  repeat rewrite <- app_assoc;
  first [ eexists; split; [reflexivity | repeat (constructor; try reflexivity)]
        | exists []; split; [symmetry; apply app_nil_r | constructor] ].

Ltac timers_shrink :=
  repeat (etrans; [apply delete_subseteq |]); reflexivity.

Ltac trace_tail_by tac :=
  repeat rewrite <- app_assoc;
  first [ eexists; split; [reflexivity | tac]
        | exists []; split; [symmetry; apply app_nil_r | tac] ].

(** The projections of a state built by the handlers, computed in place. *)
Ltac project_state :=
  repeat match goal with
  | |- context [sockets ?X] =>
      let y := eval cbn -[lookup insert delete Z.min Z.mul Z.pow length app] in (sockets X) in
      progress change (sockets X) with y
  | |- context [trace ?X] =>
      let y := eval cbn -[lookup insert delete Z.min Z.mul Z.pow length app] in (trace X) in
      progress change (trace X) with y
  | |- context [timers ?X] =>
      let y := eval cbn -[lookup insert delete Z.min Z.mul Z.pow length app] in (timers X) in
      progress change (timers X) with y
  | |- context [ws ?X] =>
      let y := eval cbn -[lookup insert delete Z.min Z.mul Z.pow length app] in (ws X) in
      progress change (ws X) with y
  end.

Ltac timer_lookup :=
  repeat (rewrite lookup_insert || rewrite lookup_delete);
  repeat case_decide; simplify_eq; try reflexivity; try lia; try congruence.

(** ** The repository's tests, replayed on the model *)

Example test_initialization :
  trace (resilientEventListener (testArgs None None) testContract) =
    [Log info (MsgConnecting "ws://test-url.com");
     NewWebSocket "ws://test-url.com" 0%nat;
     Log debug (MsgSubscribing "0xmockTopicHash")].
Proof. reflexivity. Qed.

Example test_reconnect_with_backoff :
  let a := testArgs None None in
  let s0 := resilientEventListener a testContract in
  let s1 := run a testContract [EvClose 0%nat; EvTimer 0%nat] s0 in
  let s2 := run a testContract [EvClose 1%nat; EvTimer 1%nat] s1 in
  (length (sockets s0), length (sockets s1), length (sockets s2)) = (1, 2, 3)%nat.
Proof. vm_compute. reflexivity. Qed.

Example test_subscription_and_event :
  let a := testArgs None None in
  let s := run a testContract [EvOpen 0%nat; EvMessage 0%nat (confirmation "0xsub123")]
             (resilientEventListener a testContract) in
  let event := DataString (Some (notification [("subscription", JString "0xsub123");
                                                ("result", rawLog)])) in
  List.filter invokes_consumer (trace (step a testContract s (EvMessage 0%nat event))) =
    [ParseLog rawLog; Callback (Some {| log_name := "TestEvent"; log_args := rawLog |})].
Proof. vm_compute. reflexivity. Qed.

Example test_ping_timeout_terminates :
  let a := testArgs None None in
  let s := run a testContract [EvOpen 0%nat; EvTimer 0%nat; EvTimer 1%nat]
             (resilientEventListener a testContract) in
  List.filter (fun e => negb (inert e)) (trace s) =
    [NewWebSocket "ws://test-url.com" 0%nat;
     WsSend 0%nat (request a testContract);
     SetTimer 0%nat {| callback := CbKeepAlive; delay := 60000; repeats := true |};
     WsSend 0%nat ping;
     SetTimer 1%nat {| callback := CbPingTimeout; delay := 15000; repeats := false |};
     WsTerminate 0%nat].
Proof. vm_compute. reflexivity. Qed.

Example test_stop_prevents_reconnection :
  let a := testArgs None None in
  let s := run a testContract [EvStop; EvClose 0%nat] (resilientEventListener a testContract) in
  length (sockets s) = 1%nat /\ timers s = ∅ /\ In (WsClose 0%nat) (trace s).
Proof. vm_compute. repeat split. tauto. Qed.

(** ** A halted listener stays halted *)

Lemma quiet_refl s : halted s -> quiet s s.
Proof.
  intros H. split; try done. exists []. split; [by rewrite app_nil_r | constructor].
Qed.

Lemma quiet_trans s1 s2 s3 : quiet s1 s2 -> quiet s2 s3 -> quiet s1 s3.
Proof.
  intros [_ Hs1 Hn1 Ht1 (n1 & E1 & F1)] [Hh Hs2 Hn2 Ht2 (n2 & E2 & F2)].
  split; try congruence.
  - by etrans.
  - exists (n1 ++ n2). split.
    + by rewrite E2, E1, app_assoc.
    + by apply Forall_app.
Qed.

Lemma halted_step args contract s e : halted s -> quiet s (step args contract s e).
Proof.
  intros [H1 H2]. destruct s; cbn in H1, H2; subst.
  destruct e; unfold_handlers; crunch.
  all: split; reduce;
    [ split; reflexivity
    | try reflexivity; try (rewrite ?length_insert; reflexivity)
    | reflexivity
    | timers_shrink
    | trace_tail ].
Qed.

Lemma halted_run args contract evs s : halted s -> quiet s (run args contract evs s).
Proof.
  revert s. induction evs as [|e evs IH]; intros s H; cbn.
  - by apply quiet_refl.
  - pose proof (halted_step args contract s e H) as Q.
    eapply quiet_trans; [exact Q |]. apply IH. by destruct Q.
Qed.

Lemma stop_halts args contract s : halted (step args contract s EvStop).
Proof.
  destruct s. unfold_handlers; crunch; split; reflexivity.
Qed.

Lemma inert_opens_no_transport e : inert e = true -> opens_transport e = false.
Proof. by destruct e. Qed.

Lemma inert_schedules_no_reconnect e : inert e = true -> schedules_reconnect e = false.
Proof. by destruct e. Qed.

(** C2. Once [stop()] has run, in any state whatever, no later schedule of
    events (timers firing, closes and any other event on sockets built
    before, further calls of [stop()]) builds a WebSocket: the listener
    stays stopped, the number of sockets built stays what it was, and no
    [new WebSocket] appears in the trace from then on. *)
Theorem stop_opens_no_transport args contract s evs :
  let s1 := step args contract s EvStop in
  let s2 := run args contract evs s1 in
  stopped s2 = true /\
  length (sockets s2) = length (sockets s1) /\
  exists new, trace s2 = trace s1 ++ new /\ Forall (fun e => opens_transport e = false) new.
Proof.
  intros s1 s2.
  destruct (halted_run args contract evs s1 (stop_halts args contract s))
    as [[Hst _] Hso _ _ (new & E & F)].
  repeat split; [exact Hst | exact Hso |].
  exists new. split; [exact E |].
  eapply Forall_impl; [exact F |]. intros e. apply inert_opens_no_transport.
Qed.

(** C7. When the handshake is rejected (the socket's [unexpected-response]
    event), in any state, the handler returns normally after logging the
    condition at level [error] and running [stop()]: the trace grows by
    the error log and by what [stop()] does, the variables end as [stop()]
    leaves them, the listener is stopped, and no later schedule of events
    arms a reconnect timer or builds a WebSocket. *)
Theorem unexpected_response_stops args contract s c statusCode statusMessage evs :
  let e := EvUnexpectedResponse c statusCode statusMessage in
  let s1 := step args contract s e in
  let s2 := run args contract evs s1 in
  outcome args contract s e = Normal tt /\
  trace s1 = trace s ++ logged args error (MsgUnexpectedResponse statusCode statusMessage)
                     ++ logged args info MsgStopping
                     ++ match ws s with Some w => [WsClose w] | None => [] end
                     ++ cleared (keepAliveInterval s) ++ cleared (pingTimeout s) /\
  variables s1 = variables (step args contract s EvStop) /\
  stopped s1 = true /\
  exists new, trace s2 = trace s1 ++ new /\
    Forall (fun e => schedules_reconnect e = false /\ opens_transport e = false) new.
Proof.
  intros e s1 s2.
  assert (H1 : halted s1).
  { subst s1 e. destruct s. unfold_handlers; crunch; split; reflexivity. }
  split; [| split; [| split; [| split]]].
  - subst e. destruct s. unfold_handlers; crunch; reflexivity.
  - subst s1 e. destruct s. unfold logged, cleared. unfold_handlers; crunch;
      rewrite <- ?app_assoc, ?app_nil_r; reflexivity.
  - subst s1 e. destruct s. unfold variables. unfold_handlers; crunch; reflexivity.
  - apply H1.
  - destruct (halted_run args contract evs s1 H1) as [_ _ _ _ (new & E & F)].
    exists new. split; [exact E |].
    eapply Forall_impl; [exact F |]. intros x Hx.
    split; [by apply inert_schedules_no_reconnect | by apply inert_opens_no_transport].
Qed.

(** ** Backoff *)

Lemma backoff_step args contract s e :
  stopped s = false -> keeps_backoff e = true ->
  stopped (step args contract s e) = false /\
  reconnectDelay (step args contract s e) =
    if is_close e then Z.min (reconnectDelay s * 2) 30000 else reconnectDelay s.
Proof.
  intros H1 H2. destruct s; cbn in H1; subst.
  destruct e; try discriminate H2; unfold_handlers; crunch; split; reflexivity.
Qed.

Lemma doubling_capped (n : nat) :
  Z.min (Z.min (1000 * 2 ^ Z.of_nat n) 30000 * 2) 30000 = Z.min (1000 * 2 ^ Z.of_nat (S n)) 30000.
Proof.
  rewrite Nat2Z.inj_succ, Z.pow_succ_r by lia.
  assert (0 < 2 ^ Z.of_nat n) by (apply Z.pow_pos_nonneg; lia).
  lia.
Qed.

Lemma backoff_run args contract evs : forall s (k : nat),
  stopped s = false ->
  reconnectDelay s = Z.min (1000 * 2 ^ Z.of_nat k) 30000 ->
  forallb keeps_backoff evs = true ->
  stopped (run args contract evs s) = false /\
  reconnectDelay (run args contract evs s) = Z.min (1000 * 2 ^ Z.of_nat (k + closes evs)) 30000.
Proof.
  induction evs as [|e evs IH]; intros s k Hs Hd Hk.
  - cbn. by rewrite Nat.add_0_r.
  - cbn in Hk. apply andb_true_iff in Hk as [He Hk].
    destruct (backoff_step args contract s e Hs He) as [Hs' Hd'].
    cbn [run fold_left closes]. fold (run args contract evs (step args contract s e)).
    destruct (is_close e).
    + rewrite Hd, doubling_capped in Hd'.
      destruct (IH _ (S k) Hs' Hd' Hk) as [A B]. split; [exact A |].
      rewrite B. do 3 f_equal. lia.
    + rewrite Hd in Hd'.
      destruct (IH _ k Hs' Hd' Hk) as [A B]. split; [exact A |].
      rewrite B. do 3 f_equal.
Qed.

Lemma close_arms_reconnect args contract s c :
  stopped s = false ->
  let tm := {| callback := CbConnect; delay := reconnectDelay s; repeats := false |} in
  let s' := step args contract s (EvClose c) in
  timers s' !! nextTimer s = Some tm /\
  exists old, trace s' = old ++ [SetTimer (nextTimer s) tm].
Proof.
  intros H1. destruct s; cbn in H1; subst.
  unfold_handlers; crunch; (split; [apply lookup_insert_eq | eexists; reflexivity]).
Qed.

(** C3. Starting where the delay is at its base (at construction, or
    right after an open), after any schedule of events that holds [n]
    closes and no open and no stop, the delay stands at
    [min (1000 * 2^n) 30000]; the next close arms the reconnect timer with
    exactly that delay; an open, in any state, puts the delay back to
    1000.  In the scenario of a first close, the reconnect it scheduled,
    and a second close at once, the two reconnect timers are armed with
    1000 and then 2000 milliseconds. *)
Theorem backoff_delay args contract s evs c :
  stopped s = false ->
  reconnectDelay s = 1000 ->
  forallb keeps_backoff evs = true ->
  let s' := run args contract evs s in
  let tm := {| callback := CbConnect;
               delay := Z.min (1000 * 2 ^ Z.of_nat (closes evs)) 30000;
               repeats := false |} in
  reconnectDelay s' = Z.min (1000 * 2 ^ Z.of_nat (closes evs)) 30000 /\
  timers (step args contract s' (EvClose c)) !! nextTimer s' = Some tm /\
  (exists old, trace (step args contract s' (EvClose c)) = old ++ [SetTimer (nextTimer s') tm]) /\
  (forall s0 c0, reconnectDelay (step args contract s0 (EvOpen c0)) = 1000) /\
  List.filter arms_timer
    (trace (run args contract [EvClose 0%nat; EvTimer 0%nat; EvClose 1%nat]
              (resilientEventListener args contract)))
  = [SetTimer 0%nat {| callback := CbConnect; delay := 1000; repeats := false |};
     SetTimer 1%nat {| callback := CbConnect; delay := 2000; repeats := false |}].
Proof.
  intros Hs Hd Hk s' tm.
  destruct (backoff_run args contract evs s 0%nat Hs Hd Hk) as [Hs' Hd'].
  fold s' in Hs', Hd'. cbn [Nat.add] in Hd'.
  destruct (close_arms_reconnect args contract s' c Hs') as [A B].
  rewrite Hd' in A, B.
  repeat split; [exact Hd' | exact A | exact B | |].
  - intros s0 c0. destruct s0. unfold_handlers; crunch; reflexivity.
  - destruct args as [? ? ? [] ? ? ?]; vm_compute; reflexivity.
Qed.

Lemma backoff_delay_witness :
  let a := testArgs None None in
  let s := resilientEventListener a testContract in
  let s' := run a testContract [EvClose 0%nat; EvTimer 0%nat] s in
  stopped s = false /\ reconnectDelay s = 1000 /\
  reconnectDelay s' = 2000 /\
  timers (step a testContract s' (EvClose 1%nat)) !! 1%nat =
    Some {| callback := CbConnect; delay := 2000; repeats := false |}.
Proof.
  intros a s s'.
  pose proof (backoff_delay a testContract s [EvClose 0%nat; EvTimer 0%nat] 1%nat
                eq_refl eq_refl eq_refl) as (H1 & H2 & _).
  split; [reflexivity | split; [reflexivity | split; [exact H1 | exact H2]]].
Defined.

(** ** Keep-alive *)

(** C1, as the code has it. Whatever the configuration, when the current
    socket opens the keep-alive interval is armed: a zero does not switch
    keep-alive off.  Its period is 60000 ms when [keepAliveCheckInterval]
    is unset, and also when it is 0 or NaN, the falsy numbers.  At its
    tick, the socket being open, the ping is sent and the pong-deadline
    timer is armed, with 15000 ms when [expectedPongBack] is unset, 0 or
    NaN.  Only a non-zero number replaces a default. *)
Theorem keepalive_armed_with_defaults args contract s c :
  ws s = Some c ->
  (c < length (sockets s))%nat ->
  let period := match keepAliveCheckInterval args with
                | Some (Num n) => if (n =? 0)%Z then 60000 else n
                | Some NaN => 60000
                | None => 60000
                end in
  let deadline := match expectedPongBack args with
                  | Some (Num n) => if (n =? 0)%Z then 15000 else n
                  | Some NaN => 15000
                  | None => 15000
                  end in
  let t := nextTimer s in
  let s1 := step args contract s (EvOpen c) in
  let s2 := step args contract s1 (EvTimer t) in
  keepAliveInterval s1 = Some t /\
  timers s1 !! t = Some {| callback := CbKeepAlive; delay := period; repeats := true |} /\
  trace s2 = trace s1 ++ logged args debug (MsgHealthCheck (eventName args))
                      ++ [WsSend c ping;
                          SetTimer (S t) {| callback := CbPingTimeout; delay := deadline; repeats := false |}] /\
  pingTimeout s2 = Some (S t) /\
  timers s2 !! S t = Some {| callback := CbPingTimeout; delay := deadline; repeats := false |}.
Proof.
  intros Hws Hc period deadline t s1 s2.
  destruct s; cbn in Hws, Hc, t; subst.
  destruct (lookup_lt_is_Some_2 _ _ Hc) as [sock Hsock].
  subst s2 s1 t period deadline. unfold logged.
  unfold_handlers. reduce. rewrite Hsock. reduce.
  destruct (log_supplied args); reduce.
  all: rewrite lookup_insert_eq; reduce.
  all: rewrite list_lookup_insert_eq by exact Hc; reduce.
  all: rewrite <- ?app_assoc; repeat split; try reflexivity.
  all: apply lookup_insert_eq || (rewrite lookup_insert_ne by lia; apply lookup_insert_eq).
Qed.

Lemma keepalive_armed_with_defaults_witness :
  let a := testArgs (Some 0) None in
  let s := resilientEventListener a testContract in
  ws s = Some 0%nat /\
  timers (step a testContract s (EvOpen 0%nat)) !! 0%nat =
    Some {| callback := CbKeepAlive; delay := 60000; repeats := true |}.
Proof.
  intros a s.
  pose proof (keepalive_armed_with_defaults a testContract s 0%nat eq_refl (le_n 1)) as (_ & H & _).
  split; [reflexivity | exact H].
Defined.

(** C1 as stated fails: with [keepAliveCheckInterval: 0] (and
    [expectedPongBack: 0], the configuration of [src/src/index.ts]), the
    socket opens, the interval is armed at 60000 ms, and at its tick the
    ping is sent and the pong deadline is armed at 15000 ms. *)
Lemma zero_interval_still_pings :
  let a := testArgs (Some 0) (Some 0) in
  let s := run a testContract [EvOpen 0%nat; EvTimer 0%nat] (resilientEventListener a testContract) in
  keepAliveCheckInterval a = Some (Num 0) /\
  trace s =
    [Log info (MsgConnecting "ws://test-url.com");
     NewWebSocket "ws://test-url.com" 0%nat;
     Log debug (MsgSubscribing "0xmockTopicHash");
     Log info MsgOpened;
     WsSend 0%nat (request a testContract);
     SetTimer 0%nat {| callback := CbKeepAlive; delay := 60000; repeats := true |};
     Log debug (MsgHealthCheck "TestEvent");
     WsSend 0%nat ping;
     SetTimer 1%nat {| callback := CbPingTimeout; delay := 15000; repeats := false |}] /\
  timers s !! 1%nat = Some {| callback := CbPingTimeout; delay := 15000; repeats := false |}.
Proof.
  split; [reflexivity |]. split; vm_compute; reflexivity.
Qed.

(** [NaN] is falsy as well: configured with it, the listener arms the
    keep-alive at 60000 ms and the pong deadline at 15000 ms. *)
Lemma nan_interval_takes_default :
  let a := {| rpcUrl := "ws://test-url.com"; contractAddress := "0x12345";
              eventName := "TestEvent"; log_supplied := false; callback_supplied := false;
              keepAliveCheckInterval := Some NaN; expectedPongBack := Some NaN |} in
  let s := run a testContract [EvOpen 0%nat; EvTimer 0%nat] (resilientEventListener a testContract) in
  trace s =
    [NewWebSocket "ws://test-url.com" 0%nat;
     WsSend 0%nat (request a testContract);
     SetTimer 0%nat {| callback := CbKeepAlive; delay := 60000; repeats := true |};
     WsSend 0%nat ping;
     SetTimer 1%nat {| callback := CbPingTimeout; delay := 15000; repeats := false |}].
Proof.
  vm_compute. reflexivity.
Qed.

(** ** Inbound frames *)

Lemma strict_eq_eq a b : strict_eq a b = true -> a = b.
Proof.
  destruct a, b; cbn; try discriminate; intros H; try reflexivity; f_equal.
  - by apply Bool.eqb_prop.
  - by apply Z.eqb_eq.
  - by apply String.eqb_eq.
Qed.

(** A frame the handler cannot parse, or whose payload is neither a
    string nor a buffer, is logged and discarded: the handler returns and
    no variable changes. *)
Lemma unparsable_frame_discarded args contract s c data :
  payload data = None ->
  outcome args contract s (EvMessage c data) = Normal tt /\
  variables (step args contract s (EvMessage c data)) = variables s /\
  trace (step args contract s (EvMessage c data)) =
    trace s ++ match data with
               | DataOther => logged args warn MsgUnexpectedData
               | _ => logged args error MsgParseFailed
               end.
Proof.
  intros Hp. destruct s. unfold logged.
  destruct data as [[p|]|[p|]|]; try discriminate Hp.
  all: unfold_handlers; crunch; rewrite ?app_nil_r; repeat split; reflexivity.
Qed.

(** C4. The claim fails on the text frame [{"method":"eth_subscription"}],
    which parses and is none of the three shapes: in every state the
    handler reads [parsedData.params.subscription] with [params] undefined
    and a TypeError escapes it. *)
Theorem notification_without_params_throws args contract s c :
  outcome args contract s (EvMessage c (frame [("method", JString "eth_subscription")]))
  = Throw TypeError.
Proof.
  destruct s. unfold frame. unfold_handlers. unfold_tests. reflexivity.
Qed.

(** C5. A frame whose [params.subscription] differs from the
    [subscriptionId] of its connection, and so every event notification
    (method "eth_subscription") that carries a stale identifier, adds
    neither a decoder call nor a consumer callback to the trace. *)
Theorem stale_notification_dropped args contract s c data parsedData subscription :
  payload data = Some parsedData ->
  notified_subscription parsedData = Some subscription ->
  subscription <> current_subscription s c ->
  exists new, trace (step args contract s (EvMessage c data)) = trace s ++ new /\
              Forall (fun e => invokes_consumer e = false) new.
Proof.
  intros Hp Hn Hd.
  unfold notified_subscription in Hn.
  destruct (get parsedData "params") as [params|] eqn:Ep; [| discriminate Hn].
  cbn in Hn.
  assert (Hne : strict_eq subscription (current_subscription s c) = false).
  { destruct (strict_eq _ _) eqn:E; [| reflexivity]. by apply strict_eq_eq in E. }
  destruct s. destruct data as [p|p|]; cbn in Hp; subst; try discriminate Hp.
  all: unfold_handlers; reduce.
  all: repeat (first [ rewrite Ep | rewrite Hn | rewrite Hne | break_match ]; reduce).
  all: trace_tail.
Qed.

Lemma stale_notification_dropped_witness :
  let a := testArgs None None in
  let s := run a testContract [EvOpen 0%nat; EvMessage 0%nat (confirmation "0xabc")]
             (resilientEventListener a testContract) in
  let stale := notification [("subscription", JString "0xdef"); ("result", rawLog)] in
  current_subscription s 0%nat = JString "0xabc" /\
  exists new, trace (step a testContract s (EvMessage 0%nat (DataString (Some stale)))) = trace s ++ new /\
              Forall (fun e => invokes_consumer e = false) new.
Proof.
  intros a s stale. split; [reflexivity |].
  apply (stale_notification_dropped a testContract s 0%nat (DataString (Some stale)) stale (JString "0xdef"));
    [reflexivity | reflexivity |].
  intros H. vm_compute in H. discriminate H.
Defined.

(** C9. On a connection whose [subscriptionId] is still unassigned, a
    frame that is neither response, has method "eth_subscription" and whose
    [params.subscription] reads [undefined] is taken as matching: the
    decoder is called with [params.result], and when it returns, its result
    is logged and handed to the consumer callback (each when supplied). *)
Theorem unlabelled_notification_accepted args contract s c data parsedData logData :
  payload data = Some parsedData ->
  is_subscribe_confirmation args contract parsedData = false ->
  is_keepalive_confirmation parsedData = false ->
  opt_get parsedData "method" = JString "eth_subscription" ->
  current_subscription s c = JUndefined ->
  notified_subscription parsedData = Some JUndefined ->
  notified_log parsedData = Some logData ->
  trace (step args contract s (EvMessage c data)) =
    trace s ++ ParseLog logData ::
      match parseLog contract logData with
      | Normal eventLog =>
          logged args info (MsgReceived eventLog)
          ++ (if callback_supplied args then [Callback eventLog] else [])
      | Throw _ => []
      end.
Proof.
  intros Hp H1 H2 Hm Hc Hn Hl.
  unfold notified_subscription, notified_log in *.
  destruct (get parsedData "params") as [params|] eqn:Ep; [| discriminate Hn].
  cbn in Hn, Hl. unfold logged.
  destruct s. destruct data as [p|p|]; cbn in Hp; subst; try discriminate Hp.
  all: unfold_handlers; reduce.
  all: rewrite H1, H2, Hm; reduce; rewrite Ep; reduce; rewrite Hn; reduce.
  all: rewrite Hc; reduce; rewrite Hl; reduce.
  all: destruct (parseLog contract logData); reduce;
       destruct (log_supplied args); reduce; destruct (callback_supplied args); reduce.
  all: rewrite <- ?app_assoc; reflexivity.
Qed.

Lemma unlabelled_notification_accepted_witness :
  let a := testArgs None None in
  let s := resilientEventListener a testContract in
  let unlabelled := notification [("result", rawLog)] in
  current_subscription s 0%nat = JUndefined /\
  trace (step a testContract s (EvMessage 0%nat (DataString (Some unlabelled)))) =
    trace s ++ [ParseLog rawLog;
                Log info (MsgReceived (Some {| log_name := "TestEvent"; log_args := rawLog |}));
                Callback (Some {| log_name := "TestEvent"; log_args := rawLog |})].
Proof.
  intros a s unlabelled. split; [reflexivity |].
  exact (unlabelled_notification_accepted a testContract s 0%nat (DataString (Some unlabelled))
           unlabelled rawLog eq_refl eq_refl eq_refl eq_refl eq_refl eq_refl eq_refl).
Defined.

Lemma strict_eq_true_iff v : strict_eq v (JBool true) = true <-> v = JBool true.
Proof.
  split; [apply strict_eq_eq | by intros ->].
Qed.

(** C10. With a pong deadline pending and held in [pingTimeout], a frame
    whose id is 2 takes the deadline out of the timer table if and only if
    its result is exactly [true]; then [pingTimeout] becomes [null] and
    nothing else changes.  With any other result no variable and no timer
    changes. *)
Theorem pong_clears_deadline args contract s c data parsedData t tm :
  payload data = Some parsedData ->
  opt_get parsedData "id" = JNumber 2 ->
  pingTimeout s = Some t ->
  timers s !! t = Some tm ->
  let s' := step args contract s (EvMessage c data) in
  (timers s' !! t = None <-> opt_get parsedData "result" = JBool true) /\
  (opt_get parsedData "result" = JBool true ->
   variables s' = variables (with_pingTimeout None (with_timers (delete t (timers s)) (nextTimer s) s))) /\
  (opt_get parsedData "result" <> JBool true -> variables s' = variables s).
Proof.
  intros Hp Hid Hpt Htm s'.
  assert (Hsub : is_subscribe_confirmation args contract parsedData = false).
  { unfold_tests. by rewrite Hid. }
  assert (Hka : is_keepalive_confirmation parsedData = strict_eq (opt_get parsedData "result") (JBool true)).
  { unfold_tests. by rewrite Hid. }
  destruct (strict_eq (opt_get parsedData "result") (JBool true)) eqn:Hres.
  - apply strict_eq_true_iff in Hres as Hres'.
    assert (Hs' : variables s' = variables (with_pingTimeout None (with_timers (delete t (timers s)) (nextTimer s) s))).
    { subst s'. destruct s; cbn in Hpt; subst.
      destruct data as [p|p|]; cbn in Hp; subst; try discriminate Hp.
      all: unfold_handlers; reduce; rewrite Hsub, Hka; reduce.
      all: destruct (log_supplied args); reflexivity. }
    split; [| split]; [| intros _; exact Hs' | intros Hne; by destruct Hne].
    split; [intros _; exact Hres' | intros _].
    change (timers s') with (timers (variables s')). rewrite Hs'. cbn. apply lookup_delete_eq.
  - assert (Hne : opt_get parsedData "result" <> JBool true).
    { intros E. apply strict_eq_true_iff in E. congruence. }
    assert (Hs' : variables s' = variables s).
    { subst s'. destruct s; cbn in Hpt; subst.
      destruct data as [p|p|]; cbn in Hp; subst; try discriminate Hp.
      all: unfold_handlers; reduce; rewrite Hsub, Hka; reduce.
      all: crunch; reflexivity. }
    split; [| split]; [| intros E; by destruct Hne | intros _; exact Hs'].
    split; [| intros E; by destruct Hne].
    change (timers s') with (timers (variables s')). rewrite Hs'. cbn. congruence.
Qed.

Lemma pong_clears_deadline_witness :
  let a := testArgs None None in
  let s := run a testContract [EvOpen 0%nat; EvTimer 0%nat] (resilientEventListener a testContract) in
  pingTimeout s = Some 1%nat /\
  timers s !! 1%nat = Some {| callback := CbPingTimeout; delay := 15000; repeats := false |} /\
  timers (step a testContract s (EvMessage 0%nat pong)) !! 1%nat = None.
Proof.
  intros a s.
  pose proof (pong_clears_deadline a testContract s 0%nat pong
                (JObject [("id", JNumber 2); ("result", JBool true)]) 1%nat
                {| callback := CbPingTimeout; delay := 15000; repeats := false |}
                eq_refl eq_refl eq_refl eq_refl) as [H _].
  split; [reflexivity | split; [reflexivity |]].
  apply H. reflexivity.
Defined.

(** C6, as the code has it. Every frame whose id is 1 takes effect: the
    [subscriptionId] of its connection becomes the frame's result, whatever
    it was before; the other connections and the other variables are left
    alone. *)
Theorem confirmation_sets_subscription args contract s c data parsedData :
  (c < length (sockets s))%nat ->
  payload data = Some parsedData ->
  opt_get parsedData "id" = JNumber 1 ->
  let s' := step args contract s (EvMessage c data) in
  current_subscription s' c = property parsedData "result" /\
  (forall c', c' <> c -> current_subscription s' c' = current_subscription s c') /\
  with_sockets (sockets s) (variables s') = variables s.
Proof.
  intros Hc Hp Hid s'.
  assert (Hsub : is_subscribe_confirmation args contract parsedData = true).
  { unfold_tests. by rewrite Hid. }
  assert (Hget : get parsedData "result" = Some (property parsedData "result")).
  { destruct parsedData; try reflexivity; discriminate Hid. }
  destruct (lookup_lt_is_Some_2 _ _ Hc) as [sock Hsock].
  subst s'. destruct s; cbn in Hc, Hsock.
  destruct data as [p|p|]; cbn in Hp; subst; try discriminate Hp.
  all: unfold current_subscription; unfold_handlers; reduce; rewrite Hsub; reduce; rewrite Hget; reduce.
  all: rewrite Hsock; reduce.
  all: destruct (ToString_throws _); reduce; destruct (log_supplied args); reduce.
  all: rewrite list_lookup_insert_eq by exact Hc.
  all: repeat split; try reflexivity.
  all: intros c' Hne; by rewrite list_lookup_insert_ne.
Qed.

Lemma confirmation_sets_subscription_witness :
  let a := testArgs None None in
  let s := resilientEventListener a testContract in
  current_subscription (step a testContract s (EvMessage 0%nat (confirmation "0xabc"))) 0%nat
  = JString "0xabc".
Proof.
  intros a s.
  exact (proj1 (confirmation_sets_subscription a testContract s 0%nat (confirmation "0xabc")
                  (JObject [("id", JNumber 1); ("result", JString "0xabc")])
                  (le_n 1) eq_refl eq_refl)).
Defined.

(** C6 as stated fails: a second confirmation on the same connection is
    not ignored, it replaces the identifier set by the first. *)
Lemma duplicate_confirmation_overwrites :
  let a := testArgs None None in
  let s0 := resilientEventListener a testContract in
  let s1 := step a testContract s0 (EvMessage 0%nat (confirmation "0xabc")) in
  let s2 := step a testContract s1 (EvMessage 0%nat (confirmation "0xdef")) in
  current_subscription s1 0%nat = JString "0xabc" /\
  current_subscription s2 0%nat = JString "0xdef".
Proof.
  split; reflexivity.
Qed.
(** ** Timers on the exit paths *)

Lemma issued_step args contract s e : issued s -> issued (step args contract s e).
Proof.
  intros (H1 & H2 & H3). destruct s; cbn in H1, H2, H3.
  destruct e; unfold_handlers; crunch.
  all: repeat split; reduce; intros; simplify_eq.
  all: repeat match goal with
       | H : _ !! _ = Some _ |- _ =>
           first [ apply lookup_insert_Some in H as [[<- <-] | [? H]]
                 | apply lookup_delete_Some in H as [? H] ]
       end.
  all: repeat match goal with
       | H : forall t, Some _ = Some t -> _ |- _ => specialize (H _ eq_refl)
       | H : forall t tm, _ !! t = Some tm -> _, H' : _ !! _ = Some _ |- _ => specialize (H _ _ H')
       end.
  all: lia.
Qed.

Lemma issued_run args contract evs s : issued s -> issued (run args contract evs s).
Proof.
  revert s. induction evs as [|e evs IH]; intros s H; cbn; [exact H |].
  apply IH. by apply issued_step.
Qed.

Lemma issued_at_start args contract : issued (resilientEventListener args contract).
Proof.
  unfold resilientEventListener, initial. unfold_handlers; crunch.
  all: repeat split; reduce; intros; simplify_eq.
Qed.

Lemma stop_clears_held args contract s t :
  keepAliveInterval s = Some t \/ pingTimeout s = Some t ->
  timers (step args contract s EvStop) !! t = None.
Proof.
  destruct s; cbn. intros [-> | ->]; unfold_handlers; crunch.
  all: timer_lookup.
Qed.

Lemma stop_clears_only_held args contract s r :
  keepAliveInterval s <> Some r -> pingTimeout s <> Some r ->
  timers (step args contract s EvStop) !! r = timers s !! r.
Proof.
  destruct s; cbn. intros H1 H2. unfold_handlers; crunch.
  all: timer_lookup.
Qed.

Lemma close_clears_held args contract s c t :
  keepAliveInterval s = Some t \/ pingTimeout s = Some t ->
  (t < nextTimer s)%nat ->
  timers (step args contract s (EvClose c)) !! t = None.
Proof.
  destruct s; cbn. intros [-> | ->] Hlt; unfold_handlers; crunch.
  all: timer_lookup.
Qed.

Lemma reconnect_after_stop_is_inert args contract s r tm :
  halted s ->
  timers s !! r = Some tm ->
  callback tm = CbConnect ->
  let s' := step args contract s (EvTimer r) in
  trace s' = trace s ++ logged args info MsgNotReconnecting /\
  sockets s' = sockets s /\
  nextTimer s' = nextTimer s /\
  (if repeats tm then timers s' = timers s else timers s' = delete r (timers s)).
Proof.
  intros [H1 H2] Hr Hcb. destruct s; cbn in H1, H2, Hr; subst. unfold logged.
  destruct tm as [cb d rp]; cbn in Hcb; subst cb.
  unfold_handlers; reduce. rewrite Hr; reduce.
  destruct rp, (log_supplied args); reduce; rewrite ?app_nil_r; repeat split; reflexivity.
Qed.

(** C8, as the code has it. In every state the listener reaches, [stop()]
    and the close handler take out of the timer table the keep-alive
    interval and the pong deadline whose handles the listener holds in
    [keepAliveInterval] and [pingTimeout]; [stop()] cancels no other
    timer; and a reconnect timer still pending after [stop()] only logs
    when it fires: it builds no socket and arms no timer. *)
Theorem held_timers_cancelled args contract evs c :
  let s := run args contract evs (resilientEventListener args contract) in
  let s1 := step args contract s EvStop in
  let s2 := step args contract s (EvClose c) in
  (forall t, keepAliveInterval s = Some t \/ pingTimeout s = Some t ->
             timers s1 !! t = None /\ timers s2 !! t = None) /\
  (forall r, keepAliveInterval s <> Some r -> pingTimeout s <> Some r ->
             timers s1 !! r = timers s !! r) /\
  (forall r tm, timers s1 !! r = Some tm -> callback tm = CbConnect ->
     let s3 := step args contract s1 (EvTimer r) in
     trace s3 = trace s1 ++ logged args info MsgNotReconnecting /\
     sockets s3 = sockets s1 /\
     nextTimer s3 = nextTimer s1).
Proof.
  intros s s1 s2.
  pose proof (issued_run args contract evs _ (issued_at_start args contract)) as (I1 & I2 & I3).
  fold s in I1, I2, I3.
  split; [| split].
  - intros t Ht. split.
    + by apply stop_clears_held.
    + apply close_clears_held; [exact Ht |]. destruct Ht; auto.
  - intros r. apply stop_clears_only_held.
  - intros r tm Hr Hcb s3.
    destruct (reconnect_after_stop_is_inert args contract s1 r tm
                (stop_halts args contract s) Hr Hcb) as (A & B & C & _).
    repeat split; [exact A | exact B | exact C].
Qed.

(** C8 as stated fails: a reconnect timer scheduled by a close is still
    pending after [stop()]. *)
Lemma stop_leaves_reconnect_pending :
  let a := testArgs None None in
  let s := run a testContract [EvClose 0%nat; EvStop] (resilientEventListener a testContract) in
  stopped s = true /\
  timers s !! 0%nat = Some {| callback := CbConnect; delay := 1000; repeats := false |}.
Proof.
  split; vm_compute; reflexivity.
Qed.

(** Not every pong deadline is held either: with a keep-alive period
    shorter than the pong timeout, a second tick arms a second deadline
    and [pingTimeout] forgets the first, which [stop()] then leaves
    pending. *)
Lemma superseded_deadline_survives_stop :
  let a := testArgs (Some 1000) (Some 15000) in
  let s := run a testContract [EvOpen 0%nat; EvTimer 0%nat; EvTimer 0%nat; EvStop]
             (resilientEventListener a testContract) in
  timers s !! 1%nat = Some {| callback := CbPingTimeout; delay := 15000; repeats := false |} /\
  timers s !! 2%nat = None.
Proof.
  split; vm_compute; reflexivity.
Qed.

(** * Further properties of the listener *)

(** ** Where sockets and reconnects come from *)

(** X3. An event arms a reconnect timer exactly when it is a close
    delivered while the listener is not stopped, and then it arms one; no
    other event (error, open, message, timer, stop, rejected handshake)
    arms any. *)
Theorem reconnect_only_on_close args contract s e :
  exists new, trace (step args contract s e) = trace s ++ new /\
    length (List.filter schedules_reconnect new) = reconnects_due s e.
Proof.
  unfold reconnects_due. destruct s.
  destruct e; unfold_handlers; crunch; trace_tail_by ltac:(idtac; reflexivity).
Qed.

(** X2. After construction, an event builds a socket exactly when it is
    the firing of a pending reconnect timer while the listener is not
    stopped, and then it builds one. *)
Theorem transport_only_on_reconnect_timer args contract s e :
  exists new, trace (step args contract s e) = trace s ++ new /\
    length (List.filter opens_transport new) = transports_due s e /\
    length (sockets (step args contract s e)) = (length (sockets s) + transports_due s e)%nat.
Proof.
  unfold transports_due. destruct s.
  destruct e; unfold_handlers; crunch; rewrite ?length_insert, ?length_app; reduce;
    trace_tail_by ltac:(idtac; split; [reflexivity | cbn [length]; lia]).
Qed.

(** X4. The reconnect path. A close delivered while the listener is not
    stopped clears [ws] and arms one reconnect timer with the current
    delay; when that timer fires, [connect] builds one new socket, which
    becomes [ws], starts connecting, and has no subscription identifier
    yet; the timer is spent and the delay has doubled, capped at 30000. *)
Theorem close_then_timer_reconnects args contract s c :
  stopped s = false ->
  let t := nextTimer s in
  let fresh := length (sockets s) in
  let s1 := step args contract s (EvClose c) in
  let s2 := step args contract s1 (EvTimer t) in
  ws s1 = None /\
  timers s1 !! t = Some {| callback := CbConnect; delay := reconnectDelay s; repeats := false |} /\
  sockets s2 = sockets s1 ++ [{| readyState := CONNECTING; subscriptionId := JUndefined |}] /\
  length (sockets s1) = fresh /\
  ws s2 = Some fresh /\
  timers s2 !! t = None /\
  reconnectDelay s2 = Z.min (reconnectDelay s * 2) 30000 /\
  trace s2 = trace s1 ++ logged args info (MsgConnecting (rpcUrl args))
                      ++ [NewWebSocket (rpcUrl args) fresh]
                      ++ logged args debug (MsgSubscribing (topicHash contract)).
Proof.
  intros Hs t fresh s1 s2. subst t fresh s2 s1.
  destruct s; cbn in Hs; subst. unfold logged.
  unfold_handlers; reduce.
  destruct (log_supplied args); reduce.
  all: destruct (sockets0 !! c) eqn:Ec; reduce.
  all: destruct keepAliveInterval0, pingTimeout0; reduce.
  all: rewrite lookup_insert_eq; reduce.
  all: rewrite ?length_insert, <- ?app_assoc.
  all: repeat split; try reflexivity; timer_lookup.
Qed.

Lemma close_then_timer_reconnects_witness :
  let a := testArgs None None in
  let s := resilientEventListener a testContract in
  let s2 := run a testContract [EvClose 0%nat; EvTimer 0%nat] s in
  stopped s = false /\
  ws s2 = Some 1%nat /\
  current_subscription s2 1%nat = JUndefined /\
  reconnectDelay s2 = 2000.
Proof.
  intros a s s2.
  pose proof (close_then_timer_reconnects a testContract s 0%nat eq_refl)
    as (_ & _ & _ & _ & H5 & _ & H7 & _).
  split; [reflexivity | split; [exact H5 | split; [reflexivity | exact H7]]].
Defined.

(** ** Invariants of the states the listener reaches *)

Lemma connect_delay_in_policy a d :
  (1000 <= d <= 30000)%Z ->
  timer_in_policy a {| callback := CbConnect; delay := d; repeats := false |} = true.
Proof.
  intros H. unfold timer_in_policy; cbn.
  rewrite andb_true_r. apply andb_true_iff. split; apply Z.leb_le; lia.
Qed.

Lemma timing_step args contract s e :
  timing_invariant args s -> timing_invariant args (step args contract s e).
Proof.
  intros (H1 & H2 & H3). destruct s; cbn in H1, H2, H3.
  destruct e; unfold_handlers; crunch.
  all: repeat split; reduce; try lia.
  all: try (intros t' tm' Hl;
            repeat match goal with
            | H : _ !! _ = Some _ |- _ =>
                first [ apply lookup_insert_Some in H as [[<- <-] | [? H]]
                      | apply lookup_delete_Some in H as [? H] ]
            end;
            first [ by apply connect_delay_in_policy
                  | by (unfold timer_in_policy; cbn; rewrite Z.eqb_refl)
                  | by eapply H2 ]).
  all: repeat (apply Forall_app; split); try assumption.
  all: repeat (constructor; try reflexivity).
  all: try (by apply connect_delay_in_policy).
  all: by (unfold effect_in_policy, timer_in_policy; cbn; rewrite Z.eqb_refl).
Qed.

Lemma timing_start args contract : timing_invariant args (resilientEventListener args contract).
Proof.
  unfold resilientEventListener, initial. unfold_handlers; crunch.
  all: repeat split; reduce; try lia.
  all: try (intros t tm Hl; by rewrite lookup_empty in Hl).
  all: repeat (constructor; try reflexivity).
Qed.

Lemma timing_run args contract evs s :
  timing_invariant args s -> timing_invariant args (run args contract evs s).
Proof.
  revert s. induction evs as [|e evs IH]; intros s H; cbn; [exact H |].
  apply IH. by apply timing_step.
Qed.

(** X6. In every state the listener reaches, the reconnect delay lies
    between 1000 and 30000 ms, and every timer pending or ever armed is of
    one of three kinds: a one-shot reconnect of 1000 to 30000 ms; the
    repeating keep-alive, at [keepAliveCheckInterval] when that is a
    non-zero number and at 60000 ms when it is unset, 0 or NaN; a one-shot
    pong deadline, at [expectedPongBack] when that is a non-zero number
    and at 15000 ms when it is unset, 0 or NaN. *)
Theorem timers_within_policy args contract evs :
  let s := run args contract evs (resilientEventListener args contract) in
  (1000 <= reconnectDelay s <= 30000)%Z /\
  (forall t tm, timers s !! t = Some tm -> timer_in_policy args tm = true) /\
  Forall (fun e => effect_in_policy args e = true) (trace s).
Proof.
  exact (timing_run args contract evs _ (timing_start args contract)).
Qed.

Lemma newest_step args contract s e :
  newest_invariant s -> newest_invariant (step args contract s e).
Proof.
  intros (H1 & H2). destruct s; cbn in H1, H2.
  remember (step args contract _ e) as s' eqn:E. revert E.
  destruct e; unfold_handlers; crunch; intros ->; unfold newest_invariant; project_state.
  all: repeat rewrite List.filter_app; repeat rewrite length_app; rewrite ?length_insert.
  all: cbn [List.filter opens_transport length app].
  all: split; [intros c' Hc'; simplify_eq; try (by apply H1); lia | lia].
Qed.

(** X5. In every state the listener reaches, [ws] is [null] or the socket
    built last, never an older one; and the sockets built are as many as
    the [new WebSocket] calls in the trace. *)
Theorem current_socket_is_newest args contract evs :
  let s := run args contract evs (resilientEventListener args contract) in
  (forall c, ws s = Some c -> S c = length (sockets s)) /\
  length (List.filter opens_transport (trace s)) = length (sockets s).
Proof.
  cbn zeta.
  assert (H0 : newest_invariant (resilientEventListener args contract)).
  { unfold resilientEventListener, initial, newest_invariant. unfold_handlers.
    destruct (log_supplied args); cbn; (split; [intros c Hc; by simplify_eq | reflexivity]). }
  revert H0. generalize (resilientEventListener args contract).
  induction evs as [|e evs IH]; intros s Hs; cbn; [exact Hs |].
  apply IH. by apply newest_step.
Qed.

Lemma pending_delete_le t m : (pending_reconnects (delete t m) <= pending_reconnects m)%nat.
Proof.
  unfold pending_reconnects. apply map_subseteq_size, map_filter_subseteq_mono, delete_subseteq.
Qed.

Lemma pending_delete_connect t tm m :
  m !! t = Some tm -> callback tm = CbConnect ->
  S (pending_reconnects (delete t m)) = pending_reconnects m.
Proof.
  intros Hl Hc. unfold pending_reconnects. rewrite map_filter_delete.
  assert (Hf : filter (fun kv => callback kv.2 = CbConnect) m !! t = Some tm).
  { by apply map_lookup_filter_Some. }
  rewrite map_size_delete, Hf. cbn.
  destruct (size (filter _ m)) eqn:E; [| reflexivity].
  apply map_size_empty_iff in E. rewrite E in Hf. by rewrite lookup_empty in Hf.
Qed.

Lemma pending_insert_le t tm m :
  (pending_reconnects (<[t := tm]> m)
   <= pending_reconnects m + match callback tm with CbConnect => 1 | _ => 0 end)%nat.
Proof.
  unfold pending_reconnects. rewrite map_filter_insert. case_decide as Hd; cbn in Hd.
  - rewrite Hd, map_size_insert. destruct (filter _ m !! t); cbn; lia.
  - pose proof (pending_delete_le t m) as Hle. unfold pending_reconnects in Hle.
    destruct (callback tm); try congruence; lia.
Qed.

Ltac pending_bound :=
  repeat match goal with
  | |- context [pending_reconnects (<[?t := ?tm]> ?m)] =>
      lazymatch goal with
      | H : (pending_reconnects (<[t := tm]> m) <= _)%nat |- _ => fail
      | _ => pose proof (pending_insert_le t tm m)
      end
  | |- context [pending_reconnects (delete ?t ?m)] =>
      lazymatch goal with
      | H : (pending_reconnects (delete t m) <= _)%nat |- _ => fail
      | _ => pose proof (pending_delete_le t m)
      end
  | H : context [pending_reconnects (delete ?t ?m)] |- _ =>
      lazymatch goal with
      | H' : (pending_reconnects (delete t m) <= _)%nat |- _ => fail
      | _ => pose proof (pending_delete_le t m)
      end
  end.

Lemma transports_step args contract s e :
  (forall t tm, timers s !! t = Some tm -> timer_in_policy args tm = true) ->
  let s' := step args contract s e in
  (length (sockets s') + pending_reconnects (timers s')
   <= length (sockets s) + pending_reconnects (timers s) + (if is_close e then 1 else 0))%nat.
Proof.
  intros Hpol. destruct s; cbn in Hpol. cbn zeta.
  remember (step args contract _ e) as s' eqn:E. revert E.
  destruct e; unfold_handlers; crunch; intros ->; project_state.
  all: rewrite ?length_app, ?length_insert; cbn [length sockets timers].
  all: try match goal with
       | H : ?m !! ?t = Some ?tm, H' : callback ?tm = CbConnect |- _ =>
           pose proof (pending_delete_connect t tm m H H');
           let P := fresh in pose proof (Hpol t tm H) as P;
           unfold timer_in_policy in P; rewrite H' in P;
           try (match goal with R : negb (repeats tm) = false |- _ =>
                  rewrite R, andb_false_r in P; discriminate P end)
       end.
  all: pending_bound; cbn [callback] in *; lia.
Qed.

Lemma transports_run args contract evs : forall s,
  timing_invariant args s ->
  (length (sockets (run args contract evs s)) + pending_reconnects (timers (run args contract evs s))
   <= length (sockets s) + pending_reconnects (timers s) + closes evs)%nat.
Proof.
  induction evs as [|e evs IH]; intros s Hs; cbn [run fold_left closes]; [lia |].
  fold (run args contract evs (step args contract s e)).
  pose proof (transports_step args contract s e (proj1 (proj2 Hs))) as H1.
  pose proof (IH _ (timing_step args contract s e Hs)) as H2.
  cbn zeta in H1. destruct (is_close e); lia.
Qed.

(** X1. However the events are scheduled, the sockets built so far plus
    the reconnects still pending never exceed one plus the close events
    delivered: the listener opens at most one new connection per close. *)
Theorem one_transport_per_close args contract evs :
  let s := run args contract evs (resilientEventListener args contract) in
  (length (sockets s) + pending_reconnects (timers s) <= 1 + closes evs)%nat.
Proof.
  cbn zeta.
  pose proof (transports_run args contract evs _ (timing_start args contract)) as H.
  assert (H0 : (length (sockets (resilientEventListener args contract))
                + pending_reconnects (timers (resilientEventListener args contract)) = 1)%nat).
  { unfold resilientEventListener, initial. unfold_handlers; crunch; reflexivity. }
  lia.
Qed.

(** X17. A log call appears in the trace only when a logger was supplied,
    and a consumer callback call only when a callback was supplied,
    whatever the events. *)
Theorem optional_collaborators_respected args contract evs :
  Forall (fun e => permitted args e = true)
         (trace (run args contract evs (resilientEventListener args contract))).
Proof.
  assert (Hstep : forall s e, exists new,
             trace (step args contract s e) = trace s ++ new /\
             Forall (fun x => permitted args x = true) new).
  { intros s e. destruct s.
    destruct e; unfold_handlers; crunch;
      trace_tail_by ltac:(idtac; repeat (constructor; try assumption; try reflexivity)). }
  assert (H0 : Forall (fun e => permitted args e = true) (trace (resilientEventListener args contract))).
  { unfold resilientEventListener, initial. unfold_handlers; crunch;
      repeat (constructor; try assumption; try reflexivity). }
  revert H0. generalize (resilientEventListener args contract).
  induction evs as [|e evs IH]; intros s Hs; cbn; [exact Hs |].
  apply IH. destruct (Hstep s e) as (new & -> & F).
  by apply Forall_app.
Qed.

Lemma stop_keeps_handles args contract s :
  let s1 := step args contract s EvStop in
  keepAliveInterval s1 = keepAliveInterval s /\ pingTimeout s1 = pingTimeout s.
Proof.
  destruct s. unfold_handlers; crunch; split; reflexivity.
Qed.

Lemma variables_eq s s' :
  ws s = ws s' -> pingTimeout s = pingTimeout s' -> keepAliveInterval s = keepAliveInterval s' ->
  stopped s = stopped s' -> reconnectDelay s = reconnectDelay s' -> sockets s = sockets s' ->
  timers s = timers s' -> nextTimer s = nextTimer s' ->
  variables s = variables s'.
Proof.
  destruct s, s'; cbn. intros; subst; reflexivity.
Qed.

Lemma stop_on_halted args contract s :
  halted s ->
  (forall t, keepAliveInterval s = Some t \/ pingTimeout s = Some t -> timers s !! t = None) ->
  outcome args contract s EvStop = Normal tt /\
  variables (step args contract s EvStop) = variables s /\
  trace (step args contract s EvStop) =
    trace s ++ logged args info MsgStopping
            ++ cleared (keepAliveInterval s) ++ cleared (pingTimeout s).
Proof.
  intros [H1 H2] Hc. destruct s; cbn in H1, H2, Hc; subst. unfold logged, cleared.
  unfold_handlers; crunch.
  all: repeat split; rewrite <- ?app_assoc, ?app_nil_r; try reflexivity.
  all: apply variables_eq; try reflexivity; project_state.
  all: apply map_eq; intros i; rewrite ?lookup_delete; repeat case_decide; subst.
  all: try reflexivity; symmetry; apply Hc; auto.
Qed.

(** X7. [stop()] is idempotent: called again it returns normally, changes
    no variable and no timer, closes no socket, and only repeats its log
    and the clearing of the two handles it still holds. *)
Theorem stop_twice args contract s :
  let s1 := step args contract s EvStop in
  let s2 := step args contract s1 EvStop in
  outcome args contract s1 EvStop = Normal tt /\
  variables s2 = variables s1 /\
  trace s2 = trace s1 ++ logged args info MsgStopping
                      ++ cleared (keepAliveInterval s) ++ cleared (pingTimeout s).
Proof.
  intros s1 s2.
  destruct (stop_keeps_handles args contract s) as [Hk Hp]. fold s1 in Hk, Hp.
  assert (Hc : forall t, keepAliveInterval s1 = Some t \/ pingTimeout s1 = Some t ->
                         timers s1 !! t = None).
  { intros t Ht. rewrite Hk, Hp in Ht. by apply stop_clears_held. }
  destruct (stop_on_halted args contract s1 (stop_halts args contract s) Hc) as (A & B & C).
  rewrite Hk, Hp in C. auto.
Qed.

(** ** Inbound frames, further *)

Lemma readyStates_insert (l : list Socket) c sock v :
  l !! c = Some sock ->
  readyState <$> <[c := {| readyState := readyState sock; subscriptionId := v |}]> l
  = readyState <$> l.
Proof.
  intros H. rewrite list_fmap_insert. cbn. apply list_insert_id.
  by rewrite list_lookup_fmap, H.
Qed.

(** X12. Whatever a frame holds, handling it leaves [ws], [stopped],
    the reconnect delay, the keep-alive handle and every socket's ready
    state as they were, arms no timer, and adds to the trace nothing but
    log, decoder, callback and clear-timer calls: a frame never sends,
    closes, terminates or reconnects, even when the handler throws. *)

Theorem frames_never_touch_transport args contract s c data :
  let s' := step args contract s (EvMessage c data) in
  ws s' = ws s /\ stopped s' = stopped s /\ reconnectDelay s' = reconnectDelay s /\
  keepAliveInterval s' = keepAliveInterval s /\ nextTimer s' = nextTimer s /\
  readyState <$> sockets s' = readyState <$> sockets s /\
  timers s' ⊆ timers s /\
  exists new, trace s' = trace s ++ new /\ Forall (fun e => inert e = true) new.
Proof.
  destruct s. destruct data as [[p|]|[p|]|]; unfold_handlers; crunch.
  all: repeat split; try reflexivity.
  all: try (by apply readyStates_insert).
  all: try timers_shrink.
  all: trace_tail.
Qed.

Lemma strict_eq_false a b : a <> b -> strict_eq a b = false.
Proof.
  intros H. destruct (strict_eq a b) eqn:E; [| reflexivity]. by apply strict_eq_eq in E.
Qed.

(** X13. A parsed frame that is neither response and is either not an
    "eth_subscription" notification or one whose [params.subscription]
    differs from the connection's identifier is dropped without a trace:
    the handler returns normally and the state, log included, is exactly
    what it was. *)

Theorem unhandled_frame_leaves_no_mark args contract s c data parsedData :
  payload data = Some parsedData ->
  is_subscribe_confirmation args contract parsedData = false ->
  is_keepalive_confirmation parsedData = false ->
  opt_get parsedData "method" <> JString "eth_subscription" \/
    (exists subscription, notified_subscription parsedData = Some subscription /\
                          subscription <> current_subscription s c) ->
  outcome args contract s (EvMessage c data) = Normal tt /\
  step args contract s (EvMessage c data) = s.
Proof.
  intros Hp H1 H2 H3.
  assert (Hd : dispatch args contract c parsedData s = (Normal tt, s)).
  { unfold dispatch. rewrite H1, H2. destruct H3 as [Hm | (sub & Hn & Hne)].
    - by rewrite (strict_eq_false _ _ Hm).
    - unfold notified_subscription in Hn.
      destruct (get parsedData "params") as [params|] eqn:Ep; [| discriminate Hn].
      cbn in Hn. apply strict_eq_false in Hne.
      destruct (strict_eq (opt_get parsedData "method") _); [| reflexivity].
      unfold_handlers. rewrite Ep, Hn. reduce. by rewrite Hne. }
  destruct data as [p|p|]; cbn in Hp; subst; try discriminate Hp.
  all: unfold step, outcome, handle, onmessage; rewrite Hd; split; reflexivity.
Qed.

Lemma unhandled_frame_leaves_no_mark_witness :
  let a := testArgs None None in
  let s := resilientEventListener a testContract in
  let other := frame [("jsonrpc", JString "2.0"); ("id", JNumber 7); ("result", JString "0x1")] in
  step a testContract s (EvMessage 0%nat other) = s.
Proof.
  intros a s other.
  refine (proj2 (unhandled_frame_leaves_no_mark a testContract s 0%nat other
                   (JObject [("jsonrpc", JString "2.0"); ("id", JNumber 7); ("result", JString "0x1")])
                   eq_refl eq_refl eq_refl _)).
  left. discriminate.
Defined.

(** X14. An "eth_subscription" notification that is neither response and
    whose [params.subscription] is strictly equal to the connection's
    identifier is decoded: the decoder is called once with
    [params.result]; if it returns, the result is logged and handed to the
    consumer callback and the handler returns; if it throws, the exception
    escapes the handler and no callback is made.  No variable changes
    either way. *)

Theorem matching_notification_decoded args contract s c data parsedData subscription logData :
  payload data = Some parsedData ->
  is_subscribe_confirmation args contract parsedData = false ->
  is_keepalive_confirmation parsedData = false ->
  opt_get parsedData "method" = JString "eth_subscription" ->
  notified_subscription parsedData = Some subscription ->
  strict_eq subscription (current_subscription s c) = true ->
  notified_log parsedData = Some logData ->
  let s' := step args contract s (EvMessage c data) in
  variables s' = variables s /\
  match parseLog contract logData with
  | Normal eventLog =>
      outcome args contract s (EvMessage c data) = Normal tt /\
      trace s' = trace s ++ [ParseLog logData] ++ logged args info (MsgReceived eventLog)
                         ++ (if callback_supplied args then [Callback eventLog] else [])
  | Throw e =>
      outcome args contract s (EvMessage c data) = Throw e /\
      trace s' = trace s ++ [ParseLog logData]
  end.
Proof.
  intros Hp H1 H2 Hm Hn Hc Hl.
  unfold notified_subscription, notified_log in *.
  destruct (get parsedData "params") as [params|] eqn:Ep; [| discriminate Hn].
  cbn in Hn, Hl. unfold logged.
  destruct s. destruct data as [p|p|]; cbn in Hp; subst; try discriminate Hp.
  all: unfold_handlers; reduce.
  all: rewrite H1, H2, Hm; reduce; rewrite Ep; reduce; rewrite Hn; reduce.
  all: rewrite Hc; reduce; rewrite Hl; reduce.
  all: destruct (parseLog contract logData); reduce;
       destruct (log_supplied args); reduce; destruct (callback_supplied args); reduce.
  all: rewrite <- ?app_assoc; repeat split; reflexivity.
Qed.

Lemma matching_notification_decoded_witness :
  let a := testArgs None None in
  let s := run a failingContract [EvMessage 0%nat (confirmation "0xabc")]
             (resilientEventListener a failingContract) in
  let event := notification [("subscription", JString "0xabc"); ("result", rawLog)] in
  current_subscription s 0%nat = JString "0xabc" /\
  outcome a failingContract s (EvMessage 0%nat (DataString (Some event))) = Throw DecoderError /\
  trace (step a failingContract s (EvMessage 0%nat (DataString (Some event)))) =
    trace s ++ [ParseLog rawLog].
Proof.
  intros a s event.
  pose proof (matching_notification_decoded a failingContract s 0%nat (DataString (Some event))
                event (JString "0xabc") rawLog
                eq_refl eq_refl eq_refl eq_refl eq_refl eq_refl eq_refl) as [_ H].
  split; [reflexivity | exact H].
Defined.

(** X16. A subscribe confirmation whose result cannot be converted to a
    string (an object with an own [toString] property, or an array holding
    one) first becomes the connection's identifier and then makes the
    handler throw a TypeError while building the log message, whether or
    not a logger was supplied; nothing is logged. *)

Theorem unprintable_confirmation_throws args contract s c data parsedData :
  (c < length (sockets s))%nat ->
  payload data = Some parsedData ->
  is_subscribe_confirmation args contract parsedData = true ->
  ToString_throws (property parsedData "result") = true ->
  let s' := step args contract s (EvMessage c data) in
  outcome args contract s (EvMessage c data) = Throw TypeError /\
  current_subscription s' c = property parsedData "result" /\
  trace s' = trace s.
Proof.
  intros Hc Hp Hsub Hts s'.
  assert (Hget : get parsedData "result" = Some (property parsedData "result")).
  { destruct parsedData; try reflexivity; discriminate Hsub. }
  destruct (lookup_lt_is_Some_2 _ _ Hc) as [sock Hsock].
  subst s'. destruct s; cbn in Hc, Hsock.
  destruct data as [p|p|]; cbn in Hp; subst; try discriminate Hp.
  all: unfold current_subscription; unfold_handlers; reduce; rewrite Hsub; reduce; rewrite Hget; reduce.
  all: rewrite Hsock; reduce; rewrite Hts; reduce.
  all: rewrite list_lookup_insert_eq by exact Hc.
  all: repeat split; reflexivity.
Qed.


Lemma unprintable_confirmation_throws_witness :
  let a := testArgs None None in
  let s := resilientEventListener a testContract in
  let odd := JObject [("toString", JNull)] in
  outcome a testContract s (EvMessage 0%nat (frame [("id", JNumber 1); ("result", odd)]))
  = Throw TypeError.
Proof.
  intros a s odd.
  exact (proj1 (unprintable_confirmation_throws a testContract s 0%nat
                  (frame [("id", JNumber 1); ("result", odd)])
                  (JObject [("id", JNumber 1); ("result", odd)])
                  (le_n 1) eq_refl eq_refl eq_refl)).
Defined.

(** X15. Confirmation, then notification. After a frame with id 1 whose
    result is the string [id], a notification on the same connection whose
    [params.subscription] is that string is decoded and delivered: the
    trace grows by the confirmation's log, the decoder call and, when the
    decoder returns, the event's log and the consumer callback. *)

Theorem confirmed_subscription_routes_events
    args contract s c d1 p1 id d2 p2 logData :
  (c < length (sockets s))%nat ->
  payload d1 = Some p1 ->
  opt_get p1 "id" = JNumber 1 ->
  opt_get p1 "result" = JString id ->
  payload d2 = Some p2 ->
  is_subscribe_confirmation args contract p2 = false ->
  is_keepalive_confirmation p2 = false ->
  opt_get p2 "method" = JString "eth_subscription" ->
  notified_subscription p2 = Some (JString id) ->
  notified_log p2 = Some logData ->
  let s2 := run args contract [EvMessage c d1; EvMessage c d2] s in
  trace s2 = trace s ++ logged args info (MsgEstablished (eventName args) (JString id))
                     ++ [ParseLog logData]
                     ++ match parseLog contract logData with
                        | Normal eventLog =>
                            logged args info (MsgReceived eventLog)
                            ++ (if callback_supplied args then [Callback eventLog] else [])
                        | Throw _ => []
                        end.
Proof.
  intros Hc Hp1 Hid Hres Hp2 H1 H2 Hm Hn Hl.
  assert (Hsub : is_subscribe_confirmation args contract p1 = true).
  { unfold_tests. by rewrite Hid. }
  assert (Hget : get p1 "result" = Some (JString id)).
  { destruct p1; try discriminate Hid; cbn in *; by f_equal. }
  unfold notified_subscription, notified_log in *.
  destruct (get p2 "params") as [params|] eqn:Ep; [| discriminate Hn].
  cbn in Hn, Hl.
  destruct (lookup_lt_is_Some_2 _ _ Hc) as [sock Hsock].
  destruct s; cbn in Hc, Hsock. unfold logged, run; cbn [fold_left].
  destruct d1 as [q|q|]; cbn in Hp1; subst; try discriminate Hp1.
  all: destruct d2 as [q|q|]; cbn in Hp2; subst; try discriminate Hp2.
  all: unfold_handlers; reduce; rewrite Hsub; reduce; rewrite Hget; reduce.
  all: rewrite Hsock; reduce.
  all: destruct (log_supplied args); reduce.
  all: rewrite H1, H2, Hm; reduce; rewrite Ep; reduce; rewrite Hn; reduce.
  all: unfold current_subscription; reduce.
  all: rewrite list_lookup_insert_eq by exact Hc; reduce.
  all: rewrite String.eqb_refl; reduce; rewrite Hl; reduce.
  all: destruct (parseLog contract logData); reduce; destruct (callback_supplied args); reduce.
  all: rewrite <- ?app_assoc, ?app_nil_r; reflexivity.
Qed.


Lemma confirmed_subscription_routes_events_witness :
  let a := testArgs None None in
  let s := resilientEventListener a testContract in
  let event := notification [("subscription", JString "0xabc"); ("result", rawLog)] in
  let delivered := Some {| log_name := "TestEvent"; log_args := rawLog |} in
  trace (run a testContract [EvMessage 0%nat (confirmation "0xabc");
                             EvMessage 0%nat (DataString (Some event))] s) =
    trace s ++ [Log info (MsgEstablished "TestEvent" (JString "0xabc"));
                ParseLog rawLog;
                Log info (MsgReceived delivered);
                Callback delivered].
Proof.
  intros a s event delivered.
  exact (confirmed_subscription_routes_events a testContract s 0%nat
           (confirmation "0xabc") (JObject [("id", JNumber 1); ("result", JString "0xabc")]) "0xabc"
           (DataString (Some event)) event rawLog
           (le_n 1) eq_refl eq_refl eq_refl eq_refl eq_refl eq_refl eq_refl eq_refl eq_refl).
Defined.

(** ** Health checks *)

Lemma tick_on_open_socket args contract s w k tm :
  ws s = Some w ->
  readyState <$> (sockets s !! w) = Some OPEN ->
  timers s !! k = Some tm ->
  callback tm = CbKeepAlive ->
  let d := nextTimer s in
  let deadline := {| callback := CbPingTimeout;
                     delay := or_default (expectedPongBack args) DEFAULT_EXPECTED_PONG_BACK;
                     repeats := false |} in
  let s1 := step args contract s (EvTimer k) in
  ws s1 = Some w /\
  sockets s1 = sockets s /\
  pingTimeout s1 = Some d /\
  nextTimer s1 = S d /\
  timers s1 = <[d := deadline]> (if repeats tm then timers s else delete k (timers s)) /\
  trace s1 = trace s ++ logged args debug (MsgHealthCheck (eventName args))
                     ++ [WsSend w ping; SetTimer d deadline].
Proof.
  intros Hw Hr Hk Hcb. destruct s; cbn in Hw, Hr, Hk; subst. unfold logged.
  destruct tm as [cb dl rp]; cbn in Hcb; subst cb.
  unfold_handlers; reduce. rewrite Hk; reduce.
  destruct rp; reduce; rewrite Hr; reduce; destruct (log_supplied args); reduce.
  all: rewrite <- ?app_assoc; repeat split; reflexivity.
Qed.

Lemma deadline_fire_spec args contract s t tm :
  timers s !! t = Some tm ->
  callback tm = CbPingTimeout ->
  repeats tm = false ->
  let s' := step args contract s (EvTimer t) in
  trace s' = trace s ++ match ws s with
                        | Some w => logged args warn MsgPingTimeout ++ [WsTerminate w]
                        | None => []
                        end /\
  timers s' = delete t (timers s) /\
  ws s' = ws s /\
  (forall w sock, ws s = Some w -> sockets s !! w = Some sock ->
     readyState <$> (sockets s' !! w) = Some (closing (readyState sock))).
Proof.
  intros Ht Hcb Hrp. destruct s; cbn in Ht. unfold logged.
  destruct tm as [cb dl rp]; cbn in Hcb, Hrp; subst.
  remember (step args contract _ (EvTimer t)) as s' eqn:E. revert E.
  unfold_handlers; reduce. rewrite Ht; reduce.
  crunch; intros ->; project_state; rewrite <- ?app_assoc, ?app_nil_r.
  all: repeat split; try reflexivity.
  all: intros w sock Hw Hs; simplify_eq.
  all: try (rewrite list_lookup_insert_eq by (by eapply lookup_lt_Some); reflexivity).
  all: match goal with H : readyState <$> _ = None |- _ => rewrite Hs in H; discriminate H end.
Qed.

Lemma spent_timer_is_silent args contract s t :
  timers s !! t = None -> step args contract s (EvTimer t) = s.
Proof.
  intros Ht. destruct s; cbn in Ht. unfold_handlers; reduce. by rewrite Ht.
Qed.

Lemma pong_spec args contract s c data parsedData :
  payload data = Some parsedData ->
  opt_get parsedData "id" = JNumber 2 ->
  opt_get parsedData "result" = JBool true ->
  let s' := step args contract s (EvMessage c data) in
  ws s' = ws s /\
  sockets s' = sockets s /\
  pingTimeout s' = None /\
  nextTimer s' = nextTimer s /\
  timers s' = match pingTimeout s with Some t => delete t (timers s) | None => timers s end /\
  trace s' = trace s ++ logged args debug MsgHealthOk ++ cleared (pingTimeout s).
Proof.
  intros Hp Hid Hres.
  assert (Hsub : is_subscribe_confirmation args contract parsedData = false).
  { unfold_tests. by rewrite Hid. }
  assert (Hka : is_keepalive_confirmation parsedData = true).
  { unfold_tests. by rewrite Hid, Hres. }
  destruct s. unfold logged, cleared.
  destruct data as [p|p|]; cbn in Hp; subst; try discriminate Hp.
  all: unfold_handlers; reduce; rewrite Hsub, Hka; reduce.
  all: crunch; rewrite <- ?app_assoc, ?app_nil_r; repeat split; reflexivity.
Qed.

(** X8. A ping left unanswered. When the keep-alive timer ticks while the
    listener holds an open socket, a ping is sent on it and a pong deadline
    is armed; when that deadline fires, the socket is terminated, once:
    the deadline is spent and cannot fire again. *)

Theorem unanswered_ping_terminates_once args contract s w k tm :
  ws s = Some w ->
  readyState <$> (sockets s !! w) = Some OPEN ->
  timers s !! k = Some tm ->
  callback tm = CbKeepAlive ->
  let d := nextTimer s in
  let deadline := {| callback := CbPingTimeout;
                     delay := or_default (expectedPongBack args) DEFAULT_EXPECTED_PONG_BACK;
                     repeats := false |} in
  let s1 := step args contract s (EvTimer k) in
  let s2 := step args contract s1 (EvTimer d) in
  trace s2 = trace s ++ logged args debug (MsgHealthCheck (eventName args))
                     ++ [WsSend w ping; SetTimer d deadline]
                     ++ logged args warn MsgPingTimeout
                     ++ [WsTerminate w] /\
  readyState <$> (sockets s2 !! w) = Some CLOSING /\
  ws s2 = Some w /\
  step args contract s2 (EvTimer d) = s2.
Proof.
  intros Hw Hr Hk Hcb d deadline s1 s2.
  destruct (tick_on_open_socket args contract s w k tm Hw Hr Hk Hcb)
    as (A & B & _ & _ & E & F).
  fold d deadline s1 in A, B, E, F.
  assert (Hd : timers s1 !! d = Some deadline) by (rewrite E; apply lookup_insert_eq).
  destruct (deadline_fire_spec args contract s1 d deadline Hd eq_refl eq_refl)
    as (T & U & V & W).
  fold s2 in T, U, V, W. rewrite A in T, V.
  destruct (sockets s !! w) as [sock|] eqn:Es; [| discriminate Hr].
  cbn in Hr. injection Hr as Hr.
  repeat split.
  - rewrite T, F, <- !app_assoc. reflexivity.
  - rewrite (W w sock A) by (by rewrite B). by rewrite Hr.
  - exact V.
  - apply spent_timer_is_silent. rewrite U. apply lookup_delete_eq.
Qed.

Lemma unanswered_ping_terminates_once_witness :
  let a := testArgs None None in
  let s := opened None None in
  let s2 := run a testContract [EvTimer 0%nat; EvTimer 1%nat] s in
  ws s = Some 0%nat /\
  timers s !! 0%nat = Some (keepAliveTimer 60000) /\
  readyState <$> (sockets s2 !! 0%nat) = Some CLOSING /\
  step a testContract s2 (EvTimer 1%nat) = s2.
Proof.
  intros a s s2.
  pose proof (unanswered_ping_terminates_once a testContract s 0%nat 0%nat (keepAliveTimer 60000)
                eq_refl eq_refl eq_refl eq_refl) as (_ & H2 & _ & H4).
  split; [reflexivity | split; [reflexivity | split; [exact H2 | exact H4]]].
Defined.

(** X9. A ping answered in time. After a tick on an open socket, a frame
    with id 2 and result [true], on whatever connection it arrives, clears
    the deadline: [pingTimeout] is [null], the deadline is no longer
    pending, and if the host still fired it nothing would happen. *)

Theorem pong_in_time_disarms_deadline args contract s w k tm c data parsedData :
  ws s = Some w ->
  readyState <$> (sockets s !! w) = Some OPEN ->
  timers s !! k = Some tm ->
  callback tm = CbKeepAlive ->
  payload data = Some parsedData ->
  opt_get parsedData "id" = JNumber 2 ->
  opt_get parsedData "result" = JBool true ->
  let d := nextTimer s in
  let s1 := step args contract s (EvTimer k) in
  let s2 := step args contract s1 (EvMessage c data) in
  pingTimeout s2 = None /\
  timers s2 !! d = None /\
  trace s2 = trace s1 ++ logged args debug MsgHealthOk ++ [ClearTimer d] /\
  step args contract s2 (EvTimer d) = s2.
Proof.
  intros Hw Hr Hk Hcb Hp Hid Hres d s1 s2.
  destruct (tick_on_open_socket args contract s w k tm Hw Hr Hk Hcb)
    as (_ & _ & C & _ & _ & _).
  fold d s1 in C.
  destruct (pong_spec args contract s1 c data parsedData Hp Hid Hres)
    as (_ & _ & C' & _ & E' & F').
  fold s2 in C', E', F'. rewrite C in E', F'.
  assert (Hd : timers s2 !! d = None) by (rewrite E'; apply lookup_delete_eq).
  repeat split; [exact C' | exact Hd | exact F' |].
  by apply spent_timer_is_silent.
Qed.

Lemma pong_in_time_disarms_deadline_witness :
  let a := testArgs None None in
  let s := opened None None in
  let s2 := run a testContract [EvTimer 0%nat; EvMessage 0%nat pong] s in
  pingTimeout s2 = None /\ timers s2 !! 1%nat = None.
Proof.
  intros a s s2.
  pose proof (pong_in_time_disarms_deadline a testContract s 0%nat 0%nat (keepAliveTimer 60000)
                0%nat pong (JObject [("id", JNumber 2); ("result", JBool true)])
                eq_refl eq_refl eq_refl eq_refl eq_refl eq_refl eq_refl) as (H1 & H2 & _).
  split; [exact H1 | exact H2].
Defined.

(** X10. A keep-alive tick does nothing at all unless the listener holds a
    socket whose ready state is OPEN: with [ws] null, or the socket still
    connecting, closing or closed, no ping is sent, no deadline is armed
    and nothing is logged. *)

Theorem tick_skipped_unless_open args contract s k tm :
  timers s !! k = Some tm ->
  callback tm = CbKeepAlive ->
  repeats tm = true ->
  current_readyState s <> Some OPEN ->
  outcome args contract s (EvTimer k) = Normal tt /\
  step args contract s (EvTimer k) = s.
Proof.
  intros Hk Hcb Hrp Hne. destruct s; cbn in Hk. unfold current_readyState in Hne; cbn in Hne.
  destruct tm as [cb dl rp]; cbn in Hcb, Hrp; subst.
  unfold_handlers; reduce. rewrite Hk; reduce.
  destruct ws0 as [w|]; reduce; [| split; reflexivity].
  destruct (sockets0 !! w) as [sock|]; reduce; [| split; reflexivity].
  destruct (readyState sock) eqn:Er; reduce; try (split; reflexivity).
  by destruct Hne.
Qed.

Lemma tick_skipped_unless_open_witness :
  let a := testArgs None None in
  let s := run a testContract [EvTimer 0%nat; EvTimer 1%nat] (opened None None) in
  current_readyState s = Some CLOSING /\
  step a testContract s (EvTimer 0%nat) = s.
Proof.
  intros a s.
  assert (H : current_readyState s <> Some OPEN) by (vm_compute; discriminate).
  split; [reflexivity |].
  exact (proj2 (tick_skipped_unless_open a testContract s 0%nat (keepAliveTimer 60000)
                  eq_refl eq_refl eq_refl H)).
Defined.

(** X11. Overlapping pings. If the keep-alive timer ticks twice before
    the first deadline fires, the second tick arms a second deadline and
    [pingTimeout] holds only that one; a pong then clears the second
    deadline alone, and the first, still pending, terminates the socket
    when it fires although the outstanding ping was answered. *)


